(** * Edge authorization callout: header extraction, token validation and
      the two protocol adapters (ext_authz Check, ext_proc Process), together
      with the proxy-wasm plugin that shares the validation contract.

    The development embeds [cmd/callout-server/main.go] and
    [plugins/wasm-jwt/main.go].  Go strings are byte sequences and are
    embedded as [string]; [[]byte] values are [list byte]; an [error] is
    represented by the text its [Error()] method returns. *)

From Stdlib Require Import String Ascii List Bool Arith ZArith Lia.
From Stdlib Require Import Sorting.Sorted Sorting.Permutation.
From Stdlib Require Strings.Byte.
Import ListNotations.
Local Open Scope list_scope.
Local Open Scope string_scope.

Set Implicit Arguments.

(** ** Go runtime pieces used by the sources *)

Module Go.

Definition error := string.

(** A Go [(T, error)] result where exactly one side is meaningful. *)
Inductive result (A : Type) : Type :=
| Ok (a : A)
| Err (e : error).
Arguments Ok {A} a.
Arguments Err {A} e.

(** [[]byte(s)] and [string(b)]. *)
Definition bytes := list Byte.byte.
Definition bytes_of_string (s : string) : bytes := list_byte_of_string s.
Definition string_of_bytes (b : bytes) : string := string_of_list_byte b.

(** [strings.HasPrefix(s, prefix)]. *)
Definition strings_HasPrefix (s prefix : string) : bool := String.prefix prefix s.

Fixpoint string_drop (n : nat) (s : string) : string :=
  match n, s with
  | O, _ => s
  | S n', String _ s' => string_drop n' s'
  | S _, EmptyString => EmptyString
  end.

(** [strings.TrimPrefix(s, prefix)]: [s] without the leading [prefix], or
    [s] itself when it does not start with [prefix]. *)
Definition strings_TrimPrefix (s prefix : string) : string :=
  if strings_HasPrefix s prefix then string_drop (String.length prefix) s else s.

(** ASCII lower-casing, the folding [strings.EqualFold] applies to the
    letters A-Z. *)
Definition ascii_lower (c : ascii) : ascii :=
  let n := nat_of_ascii c in
  if ((65 <=? n) && (n <=? 90))%nat then ascii_of_nat (n + 32) else c.

(** [strings.EqualFold(s, t)] restricted to byte-wise ASCII folding.  The
    sources only ever pass the constant ["authorization"] as [t]; none of
    its letters has a non-ASCII partner under Unicode simple folding (only
    k and s do), so on those calls the two notions agree. *)
Fixpoint strings_EqualFold (s t : string) : bool :=
  match s, t with
  | EmptyString, EmptyString => true
  | String c s', String d t' =>
      Ascii.eqb (ascii_lower c) (ascii_lower d) && strings_EqualFold s' t'
  | _, _ => false
  end.

(** [strings.Split(s, sep)] for a one-byte separator: the fields between
    the separators, always at least one. *)
Fixpoint strings_Split1 (s : string) (sep : ascii) : list string :=
  match s with
  | EmptyString => [EmptyString]
  | String c s' =>
      if Ascii.eqb c sep then EmptyString :: strings_Split1 s' sep
      else match strings_Split1 s' sep with
           | f :: fs => String c f :: fs
           | [] => [String c EmptyString]
           end
  end.

(** [fmt.Sprintf("denied: %s", msg)]. *)
Definition Sprintf_denied (msg : string) : string := "denied: " ++ msg.

End Go.
Import Go.

(** ** Envoy core types *)

(** [core.HeaderValue]: a header entry carrying either a string value or raw
    bytes.  A nil entry in a header list behaves, through the nil-safe
    getters, like the entry with all fields empty. *)
Record HeaderValue : Type := mkHeaderValue {
  hv_Key : string;
  hv_Value : string;
  hv_RawValue : bytes
}.

(** [core.HeaderMap]. *)
Record HeaderMap : Type := mkHeaderMap {
  hm_Headers : list HeaderValue
}.

(** [core.HeaderValueOption]; [hvo_Append] is the wrapped boolean. *)
Record HeaderValueOption : Type := mkHeaderValueOption {
  hvo_Header : HeaderValue;
  hvo_Append : option bool
}.

(** ** Constants of the callout server *)

Definition bearerPrefix : string := "Bearer ".
Definition headerAuth : string := "authorization".
Definition headerUID : string := "x-uid".

Definition errMissingAuthorization : error := "authorization header is missing".
Definition errInvalidAuthorization : error := "authorization header is invalid".

(** [codes.OK], [codes.PermissionDenied], [envoytype.StatusCode_Forbidden]. *)
Definition codes_OK : Z := 0%Z.
Definition codes_PermissionDenied : Z := 7%Z.
Definition StatusCode_Forbidden : Z := 403%Z.

(** ** Header extraction *)

(** The value one entry contributes: its string value, or the raw bytes when
    the string is empty and the raw bytes are not. *)
Definition entryValue (header : HeaderValue) : string :=
  let value := hv_Value header in
  if String.eqb value "" && (0 <? List.length (hv_RawValue header))%nat
  then string_of_bytes (hv_RawValue header)
  else value.

(** The [for ... range headerMap.GetHeaders()] loop of
    [getHeaderValueFromHeaderMap]. *)
Fixpoint headerLoop (headers : list HeaderValue) (key : string) : string :=
  match headers with
  | [] => ""
  | header :: rest =>
      if negb (strings_EqualFold (hv_Key header) key) then headerLoop rest key
      else
        let value := entryValue header in
        if negb (String.eqb value "") then value
        else headerLoop rest key
  end.

Definition getHeaderValueFromHeaderMap (headerMap : option HeaderMap) (key : string)
  : string :=
  match headerMap with
  | None => ""
  | Some hm => headerLoop (hm_Headers hm) key
  end.

Definition parseBearer (value : string) : result string :=
  if negb (strings_HasPrefix value bearerPrefix) then Err errInvalidAuthorization
  else Ok (strings_TrimPrefix value bearerPrefix).

Definition bearerFromHeaderMap (headerMap : option HeaderMap) : result string :=
  let value := getHeaderValueFromHeaderMap headerMap headerAuth in
  if negb (String.eqb value "") then parseBearer value
  else Err errMissingAuthorization.

(** ** The token library boundary *)

(** [*rsa.PublicKey]: modulus and public exponent. *)
Record rsa_PublicKey : Type := mkPublicKey {
  pk_N : Z;
  pk_E : Z
}.

(** The part of a parsed [jwt.Token] the sources read: [Subject()] returns
    the claim and whether it is present; the temporal claims are seconds
    since the epoch. *)
Record Token : Type := mkToken {
  tok_Subject : option string;
  tok_IssuedAt : option Z;
  tok_NotBefore : option Z;
  tok_Expiration : option Z
}.

(** [jwa.RS256()], as the name the algorithm carries in a token header. *)
Definition jwa_RS256 : string := "RS256".

(** [jwt.Parse(buf, jwt.WithKey(alg, key), jwt.WithValidate(v))] of the jwx
    library, which is linked in and not part of the sources: the adapters
    are stated over any implementation of it.  The clock read during
    validation is part of the implementation. *)
Class JwtLibrary : Type := {
  jwt_Parse : bytes -> string -> rsa_PublicKey -> bool -> result Token
}.

(** ** ext_authz (Check) messages *)

Record AttributeContext_HttpRequest : Type := mkHttpRequest {
  http_Headers : list (string * string);
  http_HeaderMap : option HeaderMap
}.

Record AttributeContext_Request : Type := mkAttrRequest {
  areq_Http : option AttributeContext_HttpRequest
}.

Record AttributeContext : Type := mkAttributeContext {
  attr_Request : option AttributeContext_Request
}.

Record CheckRequest : Type := mkCheckRequest {
  creq_Attributes : option AttributeContext
}.

(** The generated getters, which accept nil receivers. *)
Definition GetAttributes (req : option CheckRequest) : option AttributeContext :=
  match req with Some r => creq_Attributes r | None => None end.
Definition GetRequest (a : option AttributeContext) : option AttributeContext_Request :=
  match a with Some x => attr_Request x | None => None end.
Definition GetHttp (r : option AttributeContext_Request)
  : option AttributeContext_HttpRequest :=
  match r with Some x => areq_Http x | None => None end.
Definition GetHeaderMap (h : option AttributeContext_HttpRequest) : option HeaderMap :=
  match h with Some x => http_HeaderMap x | None => None end.

Record rpc_Status : Type := mkStatus {
  st_Code : Z;
  st_Message : string
}.

Record OkHttpResponse : Type := mkOkHttpResponse {
  ok_Headers : list HeaderValueOption
}.

Record DeniedHttpResponse : Type := mkDeniedHttpResponse {
  denied_Status : Z;
  denied_Body : string
}.

Inductive CheckResponse_HttpResponse : Type :=
| CheckResponse_OkResponse (r : OkHttpResponse)
| CheckResponse_DeniedResponse (r : DeniedHttpResponse).

Record CheckResponse : Type := mkCheckResponse {
  cresp_Status : rpc_Status;
  cresp_HttpResponse : CheckResponse_HttpResponse
}.

(** ** ext_proc (Process) messages *)

Record HttpHeaders : Type := mkHttpHeaders {
  hh_Headers : option HeaderMap;
  hh_EndOfStream : bool
}.

Record HttpBody : Type := mkHttpBody {
  hb_Body : bytes;
  hb_EndOfStream : bool
}.

Record HttpTrailers : Type := mkHttpTrailers {
  ht_Trailers : option HeaderMap
}.

(** The [request] oneof of [ProcessingRequest]; each wrapper holds a pointer
    that may be nil. *)
Inductive ProcessingRequest_Request : Type :=
| ProcessingRequest_RequestHeaders (h : option HttpHeaders)
| ProcessingRequest_ResponseHeaders (h : option HttpHeaders)
| ProcessingRequest_RequestBody (b : option HttpBody)
| ProcessingRequest_ResponseBody (b : option HttpBody)
| ProcessingRequest_RequestTrailers (t : option HttpTrailers)
| ProcessingRequest_ResponseTrailers (t : option HttpTrailers).

Record ProcessingRequest : Type := mkProcessingRequest {
  preq_Request : option ProcessingRequest_Request
}.

(** [req.GetRequestHeaders()]: the payload when the oneof holds the
    request-headers wrapper, nil otherwise. *)
Definition GetRequestHeaders (req : ProcessingRequest) : option HttpHeaders :=
  match preq_Request req with
  | Some (ProcessingRequest_RequestHeaders h) => h
  | _ => None
  end.

(** [headers.GetHeaders()] on a possibly nil [*HttpHeaders]. *)
Definition HttpHeaders_GetHeaders (h : option HttpHeaders) : option HeaderMap :=
  match h with Some x => hh_Headers x | None => None end.

Inductive CommonResponse_ResponseStatus : Type :=
| CommonResponse_CONTINUE
| CommonResponse_CONTINUE_AND_REPLACE.

Record HeaderMutation : Type := mkHeaderMutation {
  hmut_SetHeaders : list HeaderValueOption;
  hmut_RemoveHeaders : list string
}.

Record CommonResponse : Type := mkCommonResponse {
  common_Status : CommonResponse_ResponseStatus;
  common_HeaderMutation : option HeaderMutation
}.

Record HeadersResponse : Type := mkHeadersResponse {
  hresp_Response : option CommonResponse
}.

Record BodyResponse : Type := mkBodyResponse {
  bresp_Response : option CommonResponse
}.

Record TrailersResponse : Type := mkTrailersResponse {
  tresp_HeaderMutation : option HeaderMutation
}.

Record ImmediateResponse : Type := mkImmediateResponse {
  imm_Status : Z;
  imm_Body : bytes
}.

(** The [response] oneof of [ProcessingResponse]. *)
Inductive ProcessingResponse : Type :=
| ProcessingResponse_RequestHeaders (r : HeadersResponse)
| ProcessingResponse_ResponseHeaders (r : HeadersResponse)
| ProcessingResponse_RequestBody (r : BodyResponse)
| ProcessingResponse_ResponseBody (r : BodyResponse)
| ProcessingResponse_RequestTrailers (r : TrailersResponse)
| ProcessingResponse_ResponseTrailers (r : TrailersResponse)
| ProcessingResponse_ImmediateResponse (r : ImmediateResponse).

(** ** The callout server *)

Record calloutServer : Type := mkCalloutServer {
  publicKey : rsa_PublicKey
}.

Definition newCalloutServer (key : option rsa_PublicKey) : result calloutServer :=
  match key with
  | None => Err "public key is nil"
  | Some k => Ok (mkCalloutServer k)
  end.

(** [token.Subject()]: the claim and whether it is present. *)
Definition Token_Subject (token : Token) : string * bool :=
  match tok_Subject token with
  | Some sub => (sub, true)
  | None => ("", false)
  end.

Definition bearerFromRequest (req : option CheckRequest) : result string :=
  let httpAttrs := GetHttp (GetRequest (GetAttributes req)) in
  bearerFromHeaderMap (GetHeaderMap httpAttrs).

Definition buildOkResponse (uid : string) : CheckResponse :=
  {| cresp_Status := {| st_Code := codes_OK; st_Message := "" |};
     cresp_HttpResponse :=
       CheckResponse_OkResponse
         {| ok_Headers :=
              [ {| hvo_Header := {| hv_Key := headerUID;
                                    hv_Value := uid;
                                    hv_RawValue := bytes_of_string uid |};
                   hvo_Append := Some false |} ] |} |}.

Definition buildDeniedResponse (code : Z) (msg : string) : CheckResponse :=
  {| cresp_Status := {| st_Code := code; st_Message := msg |};
     cresp_HttpResponse :=
       CheckResponse_DeniedResponse
         {| denied_Status := StatusCode_Forbidden;
            denied_Body := Sprintf_denied msg |} |}.

Definition continueCommon : option CommonResponse :=
  Some {| common_Status := CommonResponse_CONTINUE; common_HeaderMutation := None |}.

(** The type switch over [req.GetRequest()]; nil stands for the [default]
    branch. *)
Definition buildContinueProcessingResponse (req : ProcessingRequest)
  : option ProcessingResponse :=
  match preq_Request req with
  | Some (ProcessingRequest_RequestHeaders _) =>
      Some (ProcessingResponse_RequestHeaders {| hresp_Response := continueCommon |})
  | Some (ProcessingRequest_ResponseHeaders _) =>
      Some (ProcessingResponse_ResponseHeaders {| hresp_Response := continueCommon |})
  | Some (ProcessingRequest_RequestBody _) =>
      Some (ProcessingResponse_RequestBody {| bresp_Response := continueCommon |})
  | Some (ProcessingRequest_ResponseBody _) =>
      Some (ProcessingResponse_ResponseBody {| bresp_Response := continueCommon |})
  | Some (ProcessingRequest_RequestTrailers _) =>
      Some (ProcessingResponse_RequestTrailers {| tresp_HeaderMutation := None |})
  | Some (ProcessingRequest_ResponseTrailers _) =>
      Some (ProcessingResponse_ResponseTrailers {| tresp_HeaderMutation := None |})
  | None => None
  end.

Definition buildRequestHeadersProcessingResponse (uid : string) : ProcessingResponse :=
  ProcessingResponse_RequestHeaders
    {| hresp_Response :=
         Some {| common_Status := CommonResponse_CONTINUE;
                 common_HeaderMutation :=
                   Some {| hmut_SetHeaders :=
                             [ {| hvo_Header := {| hv_Key := headerUID;
                                                   hv_Value := uid;
                                                   hv_RawValue := bytes_of_string uid |};
                                  hvo_Append := Some false |} ];
                           hmut_RemoveHeaders := [] |} |} |}.

Definition buildImmediateDeniedProcessingResponse (msg : string) : ProcessingResponse :=
  ProcessingResponse_ImmediateResponse
    {| imm_Status := StatusCode_Forbidden;
       imm_Body := bytes_of_string (Sprintf_denied msg) |}.

(** What [stream.Recv] yields over one finite run of a stream: the
    messages, then either [io.EOF] ([None]) or a transport error. *)
Record ProcessStream : Type := mkProcessStream {
  stream_incoming : list ProcessingRequest;
  stream_ending : option error
}.

Section Adapters.

Context {L : JwtLibrary}.

Definition Check (s : calloutServer) (req : option CheckRequest)
  : CheckResponse * option error :=
  match bearerFromRequest req with
  | Err err => (buildDeniedResponse codes_PermissionDenied err, None)
  | Ok bearer =>
      match jwt_Parse (bytes_of_string bearer) jwa_RS256 (publicKey s) true with
      | Err err => (buildDeniedResponse codes_PermissionDenied err, None)
      | Ok token =>
          let '(sub, ok) := Token_Subject token in
          if negb ok || String.eqb sub ""
          then (buildDeniedResponse codes_PermissionDenied "subject is missing", None)
          else (buildOkResponse sub, None)
      end
  end.

Definition handleRequestHeaders (s : calloutServer) (headers : option HttpHeaders)
  : option ProcessingResponse * option error :=
  match bearerFromHeaderMap (HttpHeaders_GetHeaders headers) with
  | Err err => (Some (buildImmediateDeniedProcessingResponse err), None)
  | Ok bearer =>
      match jwt_Parse (bytes_of_string bearer) jwa_RS256 (publicKey s) true with
      | Err err => (Some (buildImmediateDeniedProcessingResponse err), None)
      | Ok token =>
          let '(sub, ok) := Token_Subject token in
          if negb ok || String.eqb sub ""
          then (Some (buildImmediateDeniedProcessingResponse "subject is missing"), None)
          else (Some (buildRequestHeadersProcessingResponse sub), None)
      end
  end.

Definition handleProcessingRequest (s : calloutServer) (req : ProcessingRequest)
  : option ProcessingResponse * option error :=
  match GetRequestHeaders req with
  | Some headers => handleRequestHeaders s (Some headers)
  | None => (buildContinueProcessingResponse req, None)
  end.

(** The receive loop of [Process].  [send sent resp] is [stream.Send]: the
    error it returns, if any, given what was sent before.  The result is the
    list of messages sent, in order, and the error [Process] returns. *)
Fixpoint ProcessLoop (s : calloutServer)
    (send : list ProcessingResponse -> ProcessingResponse -> option error)
    (incoming : list ProcessingRequest) (ending : option error)
    (sent : list ProcessingResponse) : list ProcessingResponse * option error :=
  match incoming with
  | [] => (sent, ending)
  | req :: rest =>
      match handleProcessingRequest s req with
      | (_, Some err) => (sent, Some err)
      | (None, None) => ProcessLoop s send rest ending sent
      | (Some resp, None) =>
          match send sent resp with
          | Some err => (sent, Some err)
          | None => ProcessLoop s send rest ending (sent ++ [resp])%list
          end
      end
  end.

Definition Process (s : calloutServer)
    (send : list ProcessingResponse -> ProcessingResponse -> option error)
    (stream : ProcessStream) : list ProcessingResponse * option error :=
  ProcessLoop s send (stream_incoming stream) (stream_ending stream) [].

End Adapters.

(** ** The proxy-wasm plugin *)

Module Wasm.

Record jwtHeader : Type := mkJwtHeader {
  Alg : string
}.

Record jwtClaims : Type := mkJwtClaims {
  Sub : string
}.

(** Decoding and signature primitives of the Go standard library the plugin
    calls: [base64.RawURLEncoding.DecodeString], [json.Unmarshal] into the two
    structs, [sha256.Sum256] and [rsa.VerifyPKCS1v15] with [crypto.SHA256]. *)
Class TokenCodec : Type := {
  base64_DecodeString : string -> result bytes;
  json_Unmarshal_header : bytes -> result jwtHeader;
  json_Unmarshal_claims : bytes -> result jwtClaims;
  sha256_Sum256 : bytes -> bytes;
  rsa_VerifyPKCS1v15 : rsa_PublicKey -> bytes -> bytes -> option error
}.

(** Errors of the host calls: [types.ErrorStatusNotFound] or another
    status. *)
Inductive host_error : Type :=
| ErrorStatusNotFound
| ErrorStatusOther (msg : string).

Definition host_error_text (e : host_error) : string :=
  match e with
  | ErrorStatusNotFound => "error status returned by host: not found"
  | ErrorStatusOther msg => msg
  end.

(** What the host answers to the calls the handler makes. *)
Record Host : Type := mkHost {
  GetHttpRequestHeader : string -> string * option host_error;
  ReplaceHttpRequestHeader : string -> string -> option host_error;
  AddHttpRequestHeader : string -> string -> option host_error
}.

(** The calls with an effect on the host, in the order they are made. *)
Inductive HostCall : Type :=
| CallSendHttpResponse (status : Z) (headers : list (string * string))
                       (body : bytes) (grpcStatus : Z)
| CallReplaceHttpRequestHeader (key value : string)
| CallAddHttpRequestHeader (key value : string)
| CallLogWarnf (msg : string).

Inductive Action : Type :=
| ActionContinue
| ActionPause.

Record pluginState : Type := mkPluginState {
  state_publicKey : option rsa_PublicKey;
  state_configErr : option error
}.

Record httpContext : Type := mkHttpContext {
  state : option pluginState
}.

Definition deny (reason : string) : Action * list HostCall :=
  (ActionPause,
   [CallSendHttpResponse 403 [("content-type", "text/plain")]
      (bytes_of_string reason) (-1)]).

(** The key the handler goes on with once the configuration guard passed. *)
Definition configuredKey (ctx : httpContext) : option rsa_PublicKey :=
  match state ctx with
  | None => None
  | Some st =>
      match state_configErr st with
      | Some _ => None
      | None => state_publicKey st
      end
  end.

(** The tail of [OnHttpRequestHeaders] that writes the identity header. *)
Definition setIdentity (host : Host) (sub : string) : Action * list HostCall :=
  match ReplaceHttpRequestHeader host headerUID sub with
  | None => (ActionContinue, [CallReplaceHttpRequestHeader headerUID sub])
  | Some ErrorStatusNotFound =>
      match AddHttpRequestHeader host headerUID sub with
      | None =>
          (ActionContinue,
           [CallReplaceHttpRequestHeader headerUID sub;
            CallAddHttpRequestHeader headerUID sub])
      | Some err =>
          (ActionContinue,
           [CallReplaceHttpRequestHeader headerUID sub;
            CallAddHttpRequestHeader headerUID sub;
            CallLogWarnf ("add " ++ headerUID ++ " header failed: "
                          ++ host_error_text err)])
      end
  | Some err =>
      (ActionContinue,
       [CallReplaceHttpRequestHeader headerUID sub;
        CallLogWarnf ("set " ++ headerUID ++ " header failed: "
                      ++ host_error_text err)])
  end.

Section Plugin.

Context {C : TokenCodec}.

(** The token checks of [OnHttpRequestHeaders], from the [strings.Split]
    on. *)
Definition checkToken (key : rsa_PublicKey) (host : Host) (token : string)
  : Action * list HostCall :=
  match strings_Split1 token "."%char with
  | [p0; p1; p2] =>
      match base64_DecodeString p0 with
      | Err _ => deny "denied: token header is invalid"
      | Ok headerBytes =>
      match json_Unmarshal_header headerBytes with
      | Err _ => deny "denied: token header is invalid"
      | Ok header =>
      if negb (String.eqb (Alg header) "RS256")
      then deny "denied: token header is invalid"
      else
      match base64_DecodeString p1 with
      | Err _ => deny "denied: token payload is invalid"
      | Ok payloadBytes =>
      match json_Unmarshal_claims payloadBytes with
      | Err _ => deny "denied: token payload is invalid"
      | Ok claims =>
      if String.eqb (Sub claims) ""
      then deny "denied: subject is missing"
      else
      let signingInput := p0 ++ "." ++ p1 in
      match base64_DecodeString p2 with
      | Err _ => deny "denied: token signature is invalid"
      | Ok signature =>
      let digest := sha256_Sum256 (bytes_of_string signingInput) in
      match rsa_VerifyPKCS1v15 key digest signature with
      | Some _ => deny "denied: token signature is invalid"
      | None => setIdentity host (Sub claims)
      end end end end end end
  | _ => deny "denied: token format is invalid"
  end.

Definition OnHttpRequestHeaders (ctx : httpContext) (host : Host)
  : Action * list HostCall :=
  match configuredKey ctx with
  | None => deny "denied: plugin config is invalid"
  | Some key =>
      match GetHttpRequestHeader host headerAuth with
      | (_, Some ErrorStatusNotFound) => deny "denied: authorization header is missing"
      | (_, Some (ErrorStatusOther msg)) =>
          let '(a, calls) := deny "denied: authorization header lookup failed" in
          (a, CallLogWarnf ("authorization header lookup failed: " ++ msg) :: calls)
      | (authHeader, None) =>
          if String.eqb authHeader ""
          then deny "denied: authorization header is missing"
          else if negb (strings_HasPrefix authHeader bearerPrefix)
          then deny "denied: authorization header is invalid"
          else checkToken key host (strings_TrimPrefix authHeader bearerPrefix)
      end
  end.

End Plugin.

End Wasm.

(** ** The token library, verifying with the algorithm the caller pins *)

Module Validator.

Import Wasm.

(** Whether the temporal claims of [t] admit the instant [now]: issued and
    valid no later than [now], and not yet expired. *)
Definition temporalOk (now : Z) (t : Token) : bool :=
  match tok_IssuedAt t with Some iat => (iat <=? now)%Z | None => true end
  && match tok_NotBefore t with Some nbf => (nbf <=? now)%Z | None => true end
  && match tok_Expiration t with Some exp => (now <? exp)%Z | None => true end.

(** Why the library refuses a token in compact form. *)
Inductive ParseFailure : Type :=
| FailureMalformed
| FailureSignature
| FailureValidation.

Section PinnedVerification.

Context {C : TokenCodec}.
Variable decodeClaims : bytes -> result Token.
Variable now : Z.

(** The text of the library's error for each failure, the library's
    verifiers for the algorithms other than RS256, and what the library
    makes of an input that is not three dot-separated segments. *)
Variable reasonOf : ParseFailure -> error.
Variable verifyOther : string -> rsa_PublicKey -> bytes -> bytes -> option error.
Variable parseOther : bytes -> string -> rsa_PublicKey -> bool -> result Token.

(** [jwt.Parse(buf, jwt.WithKey(alg, key), jwt.WithValidate(v))] of the jwx
    library on a token in compact form.  The library is linked in, not part
    of the sources; this is its behaviour with a key given by [WithKey]:
    the header segment has to decode, the signature over the first two
    segments is verified with the algorithm [alg] that the caller pins, the
    algorithm the header declares is not compared with it, and the temporal
    claims are enforced when validation is requested. *)
Definition pinnedParse (buf : bytes) (alg : string) (key : rsa_PublicKey)
    (validate : bool) : result Token :=
  match strings_Split1 (string_of_bytes buf) "."%char with
  | [p0; p1; p2] =>
      match base64_DecodeString p0 with
      | Err _ => Err (reasonOf FailureMalformed)
      | Ok headerBytes =>
      match json_Unmarshal_header headerBytes with
      | Err _ => Err (reasonOf FailureMalformed)
      | Ok _ =>
      match base64_DecodeString p2 with
      | Err _ => Err (reasonOf FailureMalformed)
      | Ok signature =>
      let signingInput := bytes_of_string (p0 ++ "." ++ p1) in
      let verdict :=
        if String.eqb alg "RS256"
        then rsa_VerifyPKCS1v15 key (sha256_Sum256 signingInput) signature
        else verifyOther alg key signingInput signature in
      match verdict with
      | Some _ => Err (reasonOf FailureSignature)
      | None =>
      match base64_DecodeString p1 with
      | Err _ => Err (reasonOf FailureMalformed)
      | Ok payloadBytes =>
      match decodeClaims payloadBytes with
      | Err _ => Err (reasonOf FailureMalformed)
      | Ok token =>
          if validate && negb (temporalOk now token)
          then Err (reasonOf FailureValidation)
          else Ok token
      end end end end end end
  | _ => parseOther buf alg key validate
  end.

Definition pinnedLibrary : JwtLibrary := {| jwt_Parse := pinnedParse |}.

End PinnedVerification.

End Validator.

(** ** The decision shared by the two adapters, in the design's terms *)

Inductive Decision : Type :=
| Identity (subject : string)
| Rejected (reason : string).

Section DecisionLogic.

Context {L : JwtLibrary}.

(** Header extraction followed by token validation and the subject check,
    as the design describes the shared core. *)
Definition decide (key : rsa_PublicKey) (headers : option HeaderMap) : Decision :=
  match bearerFromHeaderMap headers with
  | Err reason => Rejected reason
  | Ok bearer =>
      match jwt_Parse (bytes_of_string bearer) jwa_RS256 key true with
      | Err reason => Rejected reason
      | Ok token =>
          match tok_Subject token with
          | Some (String c sub) => Identity (String c sub)
          | _ => Rejected "subject is missing"
          end
      end
  end.

End DecisionLogic.

(** How each protocol renders a decision. *)
Definition renderCheck (d : Decision) : CheckResponse :=
  match d with
  | Identity sub => buildOkResponse sub
  | Rejected reason => buildDeniedResponse codes_PermissionDenied reason
  end.

Definition renderProcess (d : Decision) : ProcessingResponse :=
  match d with
  | Identity sub => buildRequestHeadersProcessingResponse sub
  | Rejected reason => buildImmediateDeniedProcessingResponse reason
  end.

(** The six inbound event kinds of the streaming protocol and the response
    each one is answered with when no decision is taken. *)
Inductive EventKind : Type :=
| KRequestHeaders | KResponseHeaders
| KRequestBody | KResponseBody
| KRequestTrailers | KResponseTrailers.

Definition kindOf (ev : ProcessingRequest_Request) : EventKind :=
  match ev with
  | ProcessingRequest_RequestHeaders _ => KRequestHeaders
  | ProcessingRequest_ResponseHeaders _ => KResponseHeaders
  | ProcessingRequest_RequestBody _ => KRequestBody
  | ProcessingRequest_ResponseBody _ => KResponseBody
  | ProcessingRequest_RequestTrailers _ => KRequestTrailers
  | ProcessingRequest_ResponseTrailers _ => KResponseTrailers
  end.

(** The kind a response answers, [None] for an immediate response. *)
Definition responseKind (resp : ProcessingResponse) : option EventKind :=
  match resp with
  | ProcessingResponse_RequestHeaders _ => Some KRequestHeaders
  | ProcessingResponse_ResponseHeaders _ => Some KResponseHeaders
  | ProcessingResponse_RequestBody _ => Some KRequestBody
  | ProcessingResponse_ResponseBody _ => Some KResponseBody
  | ProcessingResponse_RequestTrailers _ => Some KRequestTrailers
  | ProcessingResponse_ResponseTrailers _ => Some KResponseTrailers
  | ProcessingResponse_ImmediateResponse _ => None
  end.

Definition plainContinue : CommonResponse :=
  {| common_Status := CommonResponse_CONTINUE; common_HeaderMutation := None |}.

(** The pass-through response of a kind: continue without mutation for
    headers and bodies, an empty acknowledgement for trailers. *)
Definition passThrough (k : EventKind) : ProcessingResponse :=
  match k with
  | KRequestHeaders =>
      ProcessingResponse_RequestHeaders {| hresp_Response := Some plainContinue |}
  | KResponseHeaders =>
      ProcessingResponse_ResponseHeaders {| hresp_Response := Some plainContinue |}
  | KRequestBody =>
      ProcessingResponse_RequestBody {| bresp_Response := Some plainContinue |}
  | KResponseBody =>
      ProcessingResponse_ResponseBody {| bresp_Response := Some plainContinue |}
  | KRequestTrailers =>
      ProcessingResponse_RequestTrailers {| tresp_HeaderMutation := None |}
  | KResponseTrailers =>
      ProcessingResponse_ResponseTrailers {| tresp_HeaderMutation := None |}
  end.

(** ** Stand-ins for the linked libraries, used to run the statements on
       concrete inputs *)

Module Sample.

Import Wasm.

(** A token library that accepts three fixed tokens. *)
Definition parse (buf : bytes) (alg : string) (key : rsa_PublicKey) (validate : bool)
  : result Token :=
  let t := string_of_bytes buf in
  if String.eqb t "alice.token" then Ok (mkToken (Some "alice") None None None)
  else if String.eqb t "empty.token" then Ok (mkToken (Some "") None None None)
  else if String.eqb t "anon.token" then Ok (mkToken None None None None)
  else Err "token is malformed".

Definition library : JwtLibrary := {| jwt_Parse := parse |}.

(** A codec in which segments are their own encoding, a header's bytes are
    its algorithm name, a payload's bytes are its subject, and the one
    signature that verifies is ["valid"]. *)
Definition codec : TokenCodec :=
  {| base64_DecodeString := fun s => Ok (bytes_of_string s);
     json_Unmarshal_header := fun b => Ok (mkJwtHeader (string_of_bytes b));
     json_Unmarshal_claims := fun b => Ok (mkJwtClaims (string_of_bytes b));
     sha256_Sum256 := fun b => b;
     rsa_VerifyPKCS1v15 := fun _ _ sig =>
       if String.eqb (string_of_bytes sig) "valid"
       then None else Some "crypto/rsa: verification error" |}.

Definition decodeClaims (b : bytes) : result Token :=
  Ok (mkToken (Some (string_of_bytes b)) None None None).

Definition reasonOf (f : Validator.ParseFailure) : error :=
  match f with
  | Validator.FailureMalformed => "token is malformed"
  | Validator.FailureSignature => "signature does not verify"
  | Validator.FailureValidation => "token is outside its validity"
  end.

(** The library built on [codec]: RS256 only, compact tokens only. *)
Definition pinned : JwtLibrary :=
  Validator.pinnedLibrary (C := codec) decodeClaims 0 reasonOf
    (fun _ _ _ _ => Some "unsupported algorithm")
    (fun _ _ _ _ => Err "token is malformed").

Definition key : rsa_PublicKey := mkPublicKey 3233 17.
Definition server : calloutServer := mkCalloutServer key.

Definition authHeaders (value : string) : option HeaderMap :=
  Some (mkHeaderMap [mkHeaderValue "Authorization" value []]).

Definition checkRequest (hm : option HeaderMap) : option CheckRequest :=
  Some (mkCheckRequest (Some (mkAttributeContext (Some (mkAttrRequest
    (Some (mkHttpRequest [] hm))))))).

Definition headersEvent (hm : option HeaderMap) : ProcessingRequest :=
  mkProcessingRequest
    (Some (ProcessingRequest_RequestHeaders (Some (mkHttpHeaders hm false)))).

Definition host (value : string) : Host :=
  {| GetHttpRequestHeader := fun _ => (value, None);
     ReplaceHttpRequestHeader := fun _ _ => None;
     AddHttpRequestHeader := fun _ _ => None |}.

Definition context : httpContext :=
  mkHttpContext (Some (mkPluginState (Some key) None)).

End Sample.

(** ** Vocabulary of the statements *)

(** The value an entry is read as, in the design's words: the string value
    if it is non-empty, the raw bytes otherwise. *)
Definition preferredValue (h : HeaderValue) : string :=
  match hv_Value h with
  | EmptyString => string_of_bytes (hv_RawValue h)
  | v => v
  end.

Definition keyMatches (h : HeaderValue) (key : string) : Prop :=
  strings_EqualFold (hv_Key h) key = true.

(** [v] is the value of the earliest entry of [headers] under [key] that
    carries one. *)
Definition FirstValue (headers : list HeaderValue) (key v : string) : Prop :=
  exists pre h post,
    headers = (pre ++ h :: post)%list /\
    (forall h', In h' pre -> keyMatches h' key -> preferredValue h' = "") /\
    keyMatches h key /\ preferredValue h = v /\ v <> "".

(** The header map a Check request is read from. *)
Definition checkHeaders (req : option CheckRequest) : option HeaderMap :=
  GetHeaderMap (GetHttp (GetRequest (GetAttributes req))).

(** The lookup claimed by "the first case-insensitive match wins": the
    result is the value of the earliest entry whose key matches. *)
Definition FirstMatchWins (headers : list HeaderValue) (key : string) : Prop :=
  forall pre h post,
    headers = (pre ++ h :: post)%list ->
    (forall h', In h' pre -> ~ keyMatches h' key) ->
    keyMatches h key ->
    headerLoop headers key = preferredValue h.

(** An entry of the header map that carries neither a string value nor raw
    bytes. *)
Definition emptyEntry (h : HeaderValue) : Prop :=
  hv_Value h = "" /\ hv_RawValue h = [].

Section Reasons.

Context {L : JwtLibrary}.

(** [Fails key headers r]: extraction or validation of the token carried by
    [headers] fails, with reason [r]. *)
Inductive Fails (key : rsa_PublicKey) (headers : option HeaderMap) : string -> Prop :=
| FailsExtraction (r : string) :
    bearerFromHeaderMap headers = Err r -> Fails key headers r
| FailsValidation (bearer r : string) :
    bearerFromHeaderMap headers = Ok bearer ->
    jwt_Parse (bytes_of_string bearer) jwa_RS256 key true = Err r ->
    Fails key headers r
| FailsSubject (bearer : string) (token : Token) :
    bearerFromHeaderMap headers = Ok bearer ->
    jwt_Parse (bytes_of_string bearer) jwa_RS256 key true = Ok token ->
    tok_Subject token = None \/ tok_Subject token = Some "" ->
    Fails key headers "subject is missing".

End Reasons.

(** The identity header instruction: set [x-uid] to [sub], replacing. *)
Definition identityHeader (sub : string) : HeaderValueOption :=
  {| hvo_Header := {| hv_Key := "x-uid"; hv_Value := sub;
                      hv_RawValue := bytes_of_string sub |};
     hvo_Append := Some false |}.

(** A stream event of the given content. *)
Definition event (ev : ProcessingRequest_Request) : ProcessingRequest :=
  {| preq_Request := Some ev |}.

(** A response answers an event in its own shape: same kind, and for
    headers and bodies a continue status. *)
Definition answers (ev : ProcessingRequest_Request) (resp : ProcessingResponse)
  : Prop :=
  responseKind resp = Some (kindOf ev) /\
  match resp with
  | ProcessingResponse_RequestHeaders r | ProcessingResponse_ResponseHeaders r =>
      exists c, hresp_Response r = Some c /\ common_Status c = CommonResponse_CONTINUE
  | ProcessingResponse_RequestBody r | ProcessingResponse_ResponseBody r =>
      bresp_Response r = Some plainContinue
  | ProcessingResponse_RequestTrailers r | ProcessingResponse_ResponseTrailers r =>
      r = {| tresp_HeaderMutation := None |}
  | ProcessingResponse_ImmediateResponse _ => False
  end.

(** The immediate denial of the streaming protocol. *)
Definition immediateDenial (reason : string) : ProcessingResponse :=
  ProcessingResponse_ImmediateResponse
    {| imm_Status := 403; imm_Body := bytes_of_string ("denied: " ++ reason) |}.

(** The headers an event carries when it is a request-headers event. *)
Definition requestHeadersOf (ev : ProcessingRequest_Request) : option HttpHeaders :=
  match ev with
  | ProcessingRequest_RequestHeaders h => h
  | _ => None
  end.

(** The entries of a possibly absent header map. *)
Definition entriesOf (headerMap : option HeaderMap) : list HeaderValue :=
  match headerMap with
  | Some hm => hm_Headers hm
  | None => []
  end.

Section Responses.

Context {L : JwtLibrary}.

(** [resp] is the one message owed to the inbound message [req]: the
    response of the event's own shape, or, for a request-headers event whose
    token is refused with reason [r], the immediate denial carrying [r]. *)
Definition respondsTo (key : rsa_PublicKey) (req : ProcessingRequest)
    (resp : ProcessingResponse) : Prop :=
  exists ev, preq_Request req = Some ev /\
    ((answers ev resp /\
      forall hh r, ev = ProcessingRequest_RequestHeaders (Some hh) ->
                   ~ Fails key (hh_Headers hh) r) \/
     (exists hh r, ev = ProcessingRequest_RequestHeaders (Some hh) /\
                   Fails key (hh_Headers hh) r /\
                   resp = immediateDenial r)).

End Responses.

Section TokenHeader.

Context {C : Wasm.TokenCodec}.


End TokenHeader.

Section ClaimedRejection.

Context {C : Wasm.TokenCodec} {L : JwtLibrary}.


End ClaimedRejection.

(** The effect of a denial by the plugin: the request is paused and a 403
    with the reason as plain-text body is sent. *)
Definition pluginDenial (reason : string) : Wasm.Action * list Wasm.HostCall :=
  (Wasm.ActionPause,
   [Wasm.CallSendHttpResponse 403 [("content-type", "text/plain")]
      (bytes_of_string reason) (-1)]).

(** ** Key material *)

(** A decoded PEM block: its type line and its payload. *)
Record pem_Block : Type := mkPemBlock {
  pem_Type : string;
  pem_Bytes : bytes
}.

(** What [x509.ParsePKIXPublicKey] can return: an RSA key or a key of
    another kind. *)
Inductive x509_PublicKey : Type :=
| PubRSA (k : rsa_PublicKey)
| PubOther (kind : string).

(** [pem.Decode] (its first result) and [x509.ParsePKIXPublicKey] of the Go
    standard library. *)
Class KeyCodec : Type := {
  pem_Decode : bytes -> option pem_Block;
  x509_ParsePKIXPublicKey : bytes -> result x509_PublicKey
}.

(** [strings.ReplaceAll(s, "\\n", "\n")]: scanning from the left, every
    backslash directly followed by the letter n becomes one line feed. *)
Fixpoint strings_ReplaceAll_nl (s : string) : string :=
  match s with
  | EmptyString => EmptyString
  | String c rest =>
      match rest with
      | String d rest' =>
          if Ascii.eqb c "\"%char && Ascii.eqb d "n"%char
          then String "010"%char (strings_ReplaceAll_nl rest')
          else String c (strings_ReplaceAll_nl rest)
      | EmptyString => String c EmptyString
      end
  end.

Section KeyLoading.

Context {K : KeyCodec}.

Definition parseRSAPublicKey (pemString : string) : result rsa_PublicKey :=
  match pem_Decode (bytes_of_string pemString) with
  | None => Err "invalid PEM data"
  | Some block =>
      if negb (String.eqb (pem_Type block) "PUBLIC KEY")
      then Err ("unsupported PEM type: " ++ pem_Type block)
      else
        match x509_ParsePKIXPublicKey (pem_Bytes block) with
        | Err err => Err ("parse PKIX public key: " ++ err)
        | Ok (PubRSA rsaPub) => Ok rsaPub
        | Ok (PubOther _) => Err "invalid key type"
        end
  end.

End KeyLoading.

(** ** The plugin's configuration and start-up *)

Module Lifecycle.

Import Wasm.

Record rawConfig : Type := mkRawConfig {
  PublicKeyPEM : string
}.

(** The host's answer to [proxywasm.GetPluginConfiguration] and
    [json.Unmarshal] into [rawConfig]. *)
Class ConfigHost : Type := {
  GetPluginConfiguration : result bytes;
  json_Unmarshal_rawConfig : bytes -> result rawConfig
}.

Inductive LogLine : Type :=
| LogWarn (msg : string)
| LogInfo (msg : string).

Inductive OnPluginStartStatus : Type :=
| OnPluginStartStatusOK
| OnPluginStartStatusFailed.

Record pluginContext : Type := mkPluginContext {
  pstate : option pluginState
}.

(** The result of [OnPluginStart]: the context it leaves, its status and
    what it logged, or the panic of writing through a nil state. *)
Inductive StartOutcome : Type :=
| Started (ctx : pluginContext) (status : OnPluginStartStatus) (log : list LogLine)
| Panicked.

Definition NewPluginContext : pluginContext :=
  {| pstate := Some {| state_publicKey := None; state_configErr := None |} |}.

Definition NewHttpContext (ctx : pluginContext) : httpContext :=
  {| state := pstate ctx |}.

Section Loading.

Context {K : KeyCodec} {H : ConfigHost}.

Definition loadConfig : option pluginState * option error :=
  match GetPluginConfiguration with
  | Err err => (None, Some err)
  | Ok raw =>
      if (List.length raw =? 0)%nat then (None, None)
      else
        match json_Unmarshal_rawConfig raw with
        | Err err => (None, Some err)
        | Ok cfg =>
            let pemText := strings_ReplaceAll_nl (PublicKeyPEM cfg) in
            match pem_Decode (bytes_of_string pemText) with
            | None => (None, Some "public key PEM is invalid")
            | Some block =>
                if negb (String.eqb (pem_Type block) "PUBLIC KEY")
                then (None, Some "public key PEM is invalid")
                else
                  match x509_ParsePKIXPublicKey (pem_Bytes block) with
                  | Err err => (None, Some err)
                  | Ok (PubRSA publicKey) =>
                      (Some {| state_publicKey := Some publicKey;
                               state_configErr := None |}, None)
                  | Ok (PubOther _) => (None, Some "public key type is invalid")
                  end
            end
        end
  end.

Definition OnPluginStart (ctx : pluginContext) : StartOutcome :=
  match loadConfig with
  | (_, Some err) =>
      match pstate ctx with
      | None => Panicked
      | Some st =>
          Started {| pstate := Some {| state_publicKey := state_publicKey st;
                                       state_configErr := Some err |} |}
                  OnPluginStartStatusOK
                  [LogWarn ("plugin config error: " ++ err)]
      end
  | (st, None) =>
      Started {| pstate := st |} OnPluginStartStatusOK
              [LogInfo "proxy-wasm plugin started"]
  end.

End Loading.

End Lifecycle.

(** ** The benchmarking client *)

Module Client.

Record config : Type := mkConfig {
  TargetURL : string;
  PrivateKeyFile : string;
  Subject : string
}.

Record runConfig : Type := mkRunConfig {
  WarmupRuns : Z;
  MeasureRuns : Z
}.

(** The value of an [int64] computation: the integer wrapped into
    [-2^63, 2^63). *)
Definition int64_wrap (z : Z) : Z := ((z + 2 ^ 63) mod 2 ^ 64 - 2 ^ 63)%Z.

Section Environment.

(** [os.Getenv] and [strconv.Atoi]. *)
Variable Getenv : string -> string.
Variable Atoi : string -> result Z.

Definition parseConfig : result config :=
  let cfg := {| TargetURL := Getenv "TARGET_URL";
                PrivateKeyFile := Getenv "PRIVATE_KEY_PEM_FILE";
                Subject := Getenv "JWT_SUB" |} in
  if String.eqb (TargetURL cfg) "" then Err "target URL is required"
  else if String.eqb (PrivateKeyFile cfg) "" then Err "private key file is required"
  else if String.eqb (Subject cfg) "" then Err "subject is required"
  else Ok cfg.

Definition parseRunConfig : runConfig :=
  let warmupRuns := 5%Z in
  let measureRuns := 10%Z in
  let warmupRuns :=
    let raw := Getenv "WARMUP_RUNS" in
    if negb (String.eqb raw "") then
      match Atoi raw with
      | Ok value => if (0 <=? value)%Z then value else warmupRuns
      | Err _ => warmupRuns
      end
    else warmupRuns in
  let measureRuns :=
    let raw := Getenv "MEASURE_RUNS" in
    if negb (String.eqb raw "") then
      match Atoi raw with
      | Ok value => if (0 <? value)%Z then value else measureRuns
      | Err _ => measureRuns
      end
    else measureRuns in
  {| WarmupRuns := warmupRuns; MeasureRuns := measureRuns |}.

End Environment.

(** [sort.Slice] with [<] on durations leaves the one ascending arrangement
    of the values; it is computed here by insertion. *)
Fixpoint insertSorted (d : Z) (l : list Z) : list Z :=
  match l with
  | [] => [d]
  | x :: rest => if (d <=? x)%Z then d :: l else x :: insertSorted d rest
  end.

Fixpoint sort_Slice (l : list Z) : list Z :=
  match l with
  | [] => []
  | d :: rest => insertSorted d (sort_Slice rest)
  end.

(** The [for _, d := range latencies { total += d.Nanoseconds() }] loop on
    an [int64] accumulator. *)
Definition totalNanoseconds (latencies : list Z) : Z :=
  fold_left (fun total d => int64_wrap (total + d)) latencies 0%Z.

(** [summarizeLatencies], on durations as their nanosecond counts.  The
    first component is the content of the argument slice after the call,
    which sorts it in place; the second is (avg, median, min, max). *)
Definition summarizeLatencies (latencies : list Z) : list Z * (Z * Z * Z * Z) :=
  if (List.length latencies =? 0)%nat then (latencies, (0, 0, 0, 0))%Z
  else
    let latencies := sort_Slice latencies in
    let n := List.length latencies in
    let min := nth 0 latencies 0%Z in
    let max := nth (n - 1) latencies 0%Z in
    let total := totalNanoseconds latencies in
    let avg := Z.quot total (Z.of_nat n) in
    let mid := (n / 2)%nat in
    let median :=
      if (n mod 2 =? 0)%nat
      then Z.quot (int64_wrap (nth (mid - 1) latencies 0%Z + nth mid latencies 0%Z)) 2
      else nth mid latencies 0%Z in
    (latencies, (avg, median, min, max)).

End Client.


(** ** Vocabulary of the further statements *)

(** A string with its letters A-Z lower-cased. *)
Fixpoint lowerString (s : string) : string :=
  match s with
  | EmptyString => EmptyString
  | String c rest => String (ascii_lower c) (lowerString rest)
  end.

(** Two entries that differ at most in the letter case of their keys. *)
Definition sameEntryUpToCase (h h' : HeaderValue) : Prop :=
  lowerString (hv_Key h) = lowerString (hv_Key h') /\
  hv_Value h = hv_Value h' /\
  hv_RawValue h = hv_RawValue h'.




(** The shapes a message sent by the Process adapter can have. *)
Definition sentShape (resp : ProcessingResponse) : Prop :=
  (exists k, resp = passThrough k) \/
  (exists sub, sub <> "" /\ resp = buildRequestHeadersProcessingResponse sub) \/
  (exists r, resp = immediateDenial r).

Definition hasEvent (req : ProcessingRequest) : bool :=
  match preq_Request req with
  | Some _ => true
  | None => false
  end.

Section Owed.

Context {L : JwtLibrary}.

(** The responses owed to a run of inbound messages, in order: one per
    message that holds an event. *)
Definition responsesTo (s : calloutServer) (incoming : list ProcessingRequest)
  : list ProcessingResponse :=
  flat_map (fun req => match fst (handleProcessingRequest s req) with
                       | Some resp => [resp]
                       | None => []
                       end) incoming.

End Owed.


(** [strings.Join(fields, ".")]. *)
Fixpoint joinDots (fields : list string) : string :=
  match fields with
  | [] => ""
  | [f] => f
  | f :: rest => f ++ "." ++ joinDots rest
  end.

(** A segment without a dot. *)
Fixpoint dotFree (s : string) : bool :=
  match s with
  | EmptyString => true
  | String c rest => negb (Ascii.eqb c "."%char) && dotFree rest
  end.

(** The number of dots of a string. *)
Fixpoint dots (s : string) : nat :=
  match s with
  | EmptyString => 0
  | String c rest => (if Ascii.eqb c "."%char then 1 else 0) + dots rest
  end.

Section PluginVocabulary.

Context {C : Wasm.TokenCodec}.

(** What the plugin requires of a token before it lets the request through
    as [sub]: three dot-free segments; a header naming RS256; a payload
    with the non-empty subject [sub]; a signature that verifies, under the
    key, over the SHA-256 digest of the first two segments joined by a
    dot. *)
Definition Verified (key : rsa_PublicKey) (token sub : string) : Prop :=
  exists p0 p1 p2 headerBytes header payloadBytes claims signature,
    token = p0 ++ "." ++ p1 ++ "." ++ p2 /\
    dotFree p0 = true /\ dotFree p1 = true /\ dotFree p2 = true /\
    Wasm.base64_DecodeString p0 = Ok headerBytes /\
    Wasm.json_Unmarshal_header headerBytes = Ok header /\
    Wasm.Alg header = "RS256" /\
    Wasm.base64_DecodeString p1 = Ok payloadBytes /\
    Wasm.json_Unmarshal_claims payloadBytes = Ok claims /\
    Wasm.Sub claims = sub /\ sub <> "" /\
    Wasm.base64_DecodeString p2 = Ok signature /\
    Wasm.rsa_VerifyPKCS1v15 key
      (Wasm.sha256_Sum256 (bytes_of_string (p0 ++ "." ++ p1))) signature = None.

End PluginVocabulary.

(** The calls of a denial: log lines, then one 403 with the text
    ["denied: "] followed by [reason]; no header is written. *)
Definition deniedWith (calls : list Wasm.HostCall) (reason : string) : Prop :=
  exists log,
    calls = (log ++ [Wasm.CallSendHttpResponse 403 [("content-type", "text/plain")]
                       (bytes_of_string ("denied: " ++ reason)) (-1)])%list /\
    forall c, In c log -> exists m, c = Wasm.CallLogWarnf m.

(** The calls of a continued request: [x-uid] is replaced by [sub]; what
    follows is at most the attempt to add it and a log line; no response is
    sent. *)
Definition identityWritten (calls : list Wasm.HostCall) (sub : string) : Prop :=
  exists rest,
    calls = Wasm.CallReplaceHttpRequestHeader "x-uid" sub :: rest /\
    forall c, In c rest ->
      c = Wasm.CallAddHttpRequestHeader "x-uid" sub \/ exists m, c = Wasm.CallLogWarnf m.


(** ** Start-up of the callout server *)

Section ServerSetup.

Context {K : KeyCodec}.
Variable Getenv : string -> string.

(** The part of [main] that runs before the listener is opened: the port
    and the server it would serve with, or the line of the fatal log call
    that ends the process. *)
Definition main_setup : result (string * calloutServer) :=
  let port := Getenv "PORT" in
  let port := if String.eqb port "" then "8080" else port in
  let publicKeyPEM := Getenv "PUBLIC_KEY_PEM" in
  if String.eqb publicKeyPEM "" then Err "config error: PUBLIC_KEY_PEM is required"
  else
    let publicKeyPEM := strings_ReplaceAll_nl publicKeyPEM in
    match parseRSAPublicKey publicKeyPEM with
    | Err err => Err ("read public key error: " ++ err)
    | Ok publicKey =>
        match newCalloutServer (Some publicKey) with
        | Err err => Err ("callout server error: " ++ err)
        | Ok server => Ok (port, server)
        end
    end.

End ServerSetup.

(** Whether a text holds a backslash directly followed by the letter n. *)
Fixpoint hasEscapedNewline (s : string) : bool :=
  match s with
  | EmptyString => false
  | String c rest =>
      match rest with
      | String d _ =>
          (Ascii.eqb c "\"%char && Ascii.eqb d "n"%char) || hasEscapedNewline rest
      | EmptyString => false
      end
  end.


(** The sum of a list of durations, as an unbounded integer. *)
Definition sumZ (l : list Z) : Z := fold_right Z.add 0%Z l.

(** Stand-ins for key decoding and the plugin's configuration. *)
Module SampleConfig.

(** Any non-empty text is a public-key block holding one fixed RSA key. *)
Definition keyCodec : KeyCodec :=
  {| pem_Decode := fun b =>
       match b with
       | [] => None
       | _ => Some (mkPemBlock "PUBLIC KEY" b)
       end;
     x509_ParsePKIXPublicKey := fun _ => Ok (PubRSA Sample.key) |}.

Definition configHost : Lifecycle.ConfigHost :=
  {| Lifecycle.GetPluginConfiguration := Ok (bytes_of_string "{...}");
     Lifecycle.json_Unmarshal_rawConfig :=
       fun _ => Ok (Lifecycle.mkRawConfig "-----BEGIN PUBLIC KEY-----\nMIIB") |}.

Definition Getenv (name : string) : string :=
  if String.eqb name "PUBLIC_KEY_PEM" then "-----BEGIN PUBLIC KEY-----\nMIIB"
  else if String.eqb name "WARMUP_RUNS" then "0"
  else if String.eqb name "MEASURE_RUNS" then "1"
  else if String.eqb name "PORT" then "9000"
  else "".

Definition Atoi (s : string) : result Z :=
  if String.eqb s "0" then Ok 0%Z
  else if String.eqb s "1" then Ok 1%Z
  else Err "strconv.Atoi: invalid syntax".

End SampleConfig.


(** * Properties *)

(** ** Strings *)

Lemma HasPrefix_app (p r : string) : strings_HasPrefix (p ++ r) p = true.
Proof.
  unfold strings_HasPrefix.
  induction p as [|c p IH]; simpl.
  - destruct r; reflexivity.
  - destruct (ascii_dec c c) as [_|ne]; [exact IH | contradiction].
Qed.

Lemma HasPrefix_split (s p : string) :
  strings_HasPrefix s p = true -> s = p ++ string_drop (String.length p) s.
Proof.
  unfold strings_HasPrefix.
  revert s; induction p as [|c p IH]; intros s H; simpl.
  - reflexivity.
  - destruct s as [|d s]; simpl in H; [discriminate|].
    destruct (ascii_dec c d) as [->|ne]; [|discriminate].
    f_equal. apply IH, H.
Qed.

Lemma string_drop_app (p r : string) : string_drop (String.length p) (p ++ r) = r.
Proof. induction p as [|c p IH]; simpl; [reflexivity | exact IH]. Qed.

Lemma TrimPrefix_app (p r : string) : strings_TrimPrefix (p ++ r) p = r.
Proof.
  unfold strings_TrimPrefix. rewrite HasPrefix_app. apply string_drop_app.
Qed.

Lemma HasPrefix_iff (s p : string) :
  strings_HasPrefix s p = true <-> exists r, s = p ++ r.
Proof.
  split.
  - intros H. eexists. apply HasPrefix_split, H.
  - intros [r ->]. apply HasPrefix_app.
Qed.

Lemma string_of_bytes_nil_iff (b : bytes) : string_of_bytes b = "" <-> b = [].
Proof.
  destruct b as [|x b]; simpl; split; intros H; try reflexivity; discriminate.
Qed.

Lemma eqb_empty_false (s : string) : s <> "" -> String.eqb s "" = false.
Proof. intros H. apply String.eqb_neq, H. Qed.

(** ** Header lookup *)

Lemma entryValue_preferred (h : HeaderValue) : entryValue h = preferredValue h.
Proof.
  unfold entryValue, preferredValue.
  destruct (hv_Value h) as [|c v]; simpl; [|reflexivity].
  destruct (hv_RawValue h); reflexivity.
Qed.

Lemma headerLoop_skip (pre rest : list HeaderValue) (key : string) :
  (forall h', In h' pre -> keyMatches h' key -> preferredValue h' = "") ->
  headerLoop (pre ++ rest)%list key = headerLoop rest key.
Proof.
  induction pre as [|h pre IH]; intros Hpre; simpl; [reflexivity|].
  destruct (strings_EqualFold (hv_Key h) key) eqn:Hk; simpl.
  - rewrite entryValue_preferred, (Hpre h (or_introl eq_refl) Hk). simpl.
    apply IH. intros h' Hin. apply Hpre. right; exact Hin.
  - apply IH. intros h' Hin. apply Hpre. right; exact Hin.
Qed.

Lemma headerLoop_hit (h : HeaderValue) (post : list HeaderValue) (key : string) :
  keyMatches h key -> preferredValue h <> "" ->
  headerLoop (h :: post) key = preferredValue h.
Proof.
  intros Hk Hv. simpl. rewrite Hk, entryValue_preferred, (eqb_empty_false Hv).
  reflexivity.
Qed.

Lemma headerLoop_first (headers : list HeaderValue) (key v : string) :
  FirstValue headers key v -> headerLoop headers key = v.
Proof.
  intros (pre & h & post & -> & Hpre & Hk & <- & Hv).
  rewrite (headerLoop_skip _ _ Hpre). apply headerLoop_hit; assumption.
Qed.

Lemma headerLoop_found (headers : list HeaderValue) (key : string) :
  headerLoop headers key <> "" -> FirstValue headers key (headerLoop headers key).
Proof.
  induction headers as [|h rest IH]; simpl; intros Hne; [contradiction|].
  destruct (strings_EqualFold (hv_Key h) key) eqn:Hk; simpl in *.
  - rewrite entryValue_preferred in *.
    destruct (String.eqb (preferredValue h) "") eqn:Hv; simpl in *.
    + apply String.eqb_eq in Hv.
      destruct (IH Hne) as (pre & h0 & post & E & Hpre & Hk0 & Hv0 & Hn0).
      exists (h :: pre), h0, post. repeat split; try assumption.
      * rewrite E at 1. reflexivity.
      * intros h' [<-|Hin] Hm; [exact Hv | exact (Hpre h' Hin Hm)].
    + exists [], h, rest. repeat split; try assumption.
      intros h' [].
  - destruct (IH Hne) as (pre & h0 & post & E & Hpre & Hk0 & Hv0 & Hn0).
    exists (h :: pre), h0, post. repeat split; try assumption.
    + rewrite E at 1. reflexivity.
    + intros h' [<-|Hin] Hm; [|exact (Hpre h' Hin Hm)].
      unfold keyMatches in Hm. congruence.
Qed.

Lemma headerLoop_empty (headers : list HeaderValue) (key : string) :
  headerLoop headers key = "" <-> ~ exists v, FirstValue headers key v.
Proof.
  split.
  - intros E [v Hv]. pose proof (headerLoop_first Hv) as E'.
    destruct Hv as (_ & _ & _ & _ & _ & _ & _ & Hn). congruence.
  - intros Hno. destruct (string_dec (headerLoop headers key) "") as [E|Hne];
      [exact E|].
    exfalso. apply Hno. eexists. apply headerLoop_found, Hne.
Qed.

Lemma lookup_entries (headerMap : option HeaderMap) (key : string) :
  getHeaderValueFromHeaderMap headerMap key = headerLoop (entriesOf headerMap) key.
Proof. destruct headerMap; reflexivity. Qed.

Lemma emptyEntry_preferred (h : HeaderValue) :
  emptyEntry h <-> preferredValue h = "".
Proof.
  unfold emptyEntry, preferredValue. destruct (hv_Value h) as [|c v].
  - rewrite string_of_bytes_nil_iff. tauto.
  - split; [intros [E _]|intros E]; discriminate.
Qed.

Lemma headerLoop_all_empty (headers : list HeaderValue) (key : string) :
  (forall h, In h headers -> keyMatches h key -> emptyEntry h) ->
  headerLoop headers key = "".
Proof.
  intros H. rewrite <- (app_nil_r headers), headerLoop_skip; [reflexivity|].
  intros h Hin Hk. apply emptyEntry_preferred, H; assumption.
Qed.

(** ** Bearer extraction *)

Lemma bearerFromHeaderMap_missing (headerMap : option HeaderMap) :
  getHeaderValueFromHeaderMap headerMap headerAuth = "" ->
  bearerFromHeaderMap headerMap = Err errMissingAuthorization.
Proof. unfold bearerFromHeaderMap. intros ->. reflexivity. Qed.

Lemma bearerFromHeaderMap_bearer (headerMap : option HeaderMap) (token : string) :
  getHeaderValueFromHeaderMap headerMap headerAuth = "Bearer " ++ token ->
  bearerFromHeaderMap headerMap = Ok token.
Proof.
  unfold bearerFromHeaderMap, parseBearer. intros ->.
  change ("Bearer " ++ token) with (bearerPrefix ++ token).
  rewrite HasPrefix_app, TrimPrefix_app. reflexivity.
Qed.

Lemma bearerFromHeaderMap_inv (headerMap : option HeaderMap) :
  let value := getHeaderValueFromHeaderMap headerMap headerAuth in
  (value = "" /\ bearerFromHeaderMap headerMap = Err errMissingAuthorization) \/
  (value <> "" /\ (~ exists rest, value = "Bearer " ++ rest) /\
   bearerFromHeaderMap headerMap = Err errInvalidAuthorization) \/
  (exists token, value = "Bearer " ++ token /\
                 bearerFromHeaderMap headerMap = Ok token).
Proof.
  intros value.
  destruct (string_dec value "") as [E|Hne].
  - left. split; [exact E|]. apply bearerFromHeaderMap_missing, E.
  - right. destruct (strings_HasPrefix value bearerPrefix) eqn:Hp.
    + right. apply HasPrefix_iff in Hp. destruct Hp as [rest E].
      exists rest. split; [exact E|]. apply bearerFromHeaderMap_bearer, E.
    + left. split; [exact Hne|]. split.
      * intros [rest E]. fold value in E.
        assert (strings_HasPrefix value bearerPrefix = true) as Hp'
          by (apply HasPrefix_iff; exists rest; exact E).
        congruence.
      * unfold bearerFromHeaderMap, parseBearer. fold value.
        rewrite (eqb_empty_false Hne), Hp. reflexivity.
Qed.

(** C4.  Bearer extraction reports "authorization header is missing"
    exactly when no entry under [authorization] carries a value, reports
    "authorization header is invalid" exactly when the value found does not
    start with ["Bearer "], and otherwise returns what follows that
    prefix. *)
Theorem bearerFromHeaderMap_cases (headerMap : option HeaderMap) :
  (bearerFromHeaderMap headerMap = Err "authorization header is missing" <->
   ~ exists v, FirstValue (entriesOf headerMap) headerAuth v) /\
  (bearerFromHeaderMap headerMap = Err "authorization header is invalid" <->
   exists v, FirstValue (entriesOf headerMap) headerAuth v /\
             ~ exists rest, v = "Bearer " ++ rest) /\
  (forall token, bearerFromHeaderMap headerMap = Ok token <->
                 FirstValue (entriesOf headerMap) headerAuth ("Bearer " ++ token)).
Proof.
  pose proof (bearerFromHeaderMap_inv headerMap) as Hinv. cbv zeta in Hinv.
  rewrite lookup_entries in Hinv.
  set (value := headerLoop (entriesOf headerMap) headerAuth) in *.
  assert (forall v, FirstValue (entriesOf headerMap) headerAuth v -> v = value)
    as Huniq by (intros v Hv; symmetry; apply headerLoop_first, Hv).
  assert (value <> "" -> FirstValue (entriesOf headerMap) headerAuth value)
    as Hfound by apply headerLoop_found.
  assert (value = "" -> ~ exists v, FirstValue (entriesOf headerMap) headerAuth v)
    as Hnone by (intros E; apply headerLoop_empty, E).
  destruct Hinv as [[E R] | [(Hne & Hnp & R) | (token & E & R)]]; rewrite R.
  - split; [|split].
    + split; [intros _; apply Hnone, E | reflexivity].
    + split; [discriminate|]. intros (v & Hv & _). exfalso.
      apply (Hnone E). exists v; exact Hv.
    + intros token. split; [discriminate|]. intros Hv. exfalso.
      apply (Hnone E). eexists; exact Hv.
  - split; [|split].
    + split; [discriminate|]. intros Hno. exfalso. apply Hno.
      exists value. apply Hfound, Hne.
    + split; [|reflexivity]. intros _. exists value. split; [apply Hfound, Hne|].
      exact Hnp.
    + intros token. split; [discriminate|]. intros Hv. exfalso. apply Hnp.
      exists token. symmetry. apply Huniq, Hv.
  - assert (value <> "") as Hne by (rewrite E; discriminate).
    split; [|split].
    + split; [discriminate|]. intros Hno. exfalso. apply Hno.
      exists value. apply Hfound, Hne.
    + split; [discriminate|]. intros (v & Hv & Hnp). exfalso. apply Hnp.
      exists token. rewrite (Huniq v Hv). exact E.
    + intros token'. split.
      * intros [= <-]. rewrite <- E. apply Hfound, Hne.
      * intros Hv. apply Huniq in Hv. rewrite E in Hv.
        simpl in Hv. injection Hv as ->. reflexivity.
Qed.

(** C5, as stated, fails: with a first [authorization] entry that carries
    neither a string value nor raw bytes, the lookup goes on and returns
    the value of a later entry, not that of the first match. *)
Lemma first_match_does_not_always_win :
  ~ FirstMatchWins
      [ mkHeaderValue "authorization" "" [];
        mkHeaderValue "Authorization" "Bearer t" [] ]
      headerAuth.
Proof.
  intros H.
  specialize (H [] (mkHeaderValue "authorization" "" [])
                [mkHeaderValue "Authorization" "Bearer t" []] eq_refl).
  assert (forall h', In h' [] -> ~ keyMatches h' headerAuth) as Hpre
    by (intros h' []).
  specialize (H Hpre eq_refl). vm_compute in H. discriminate H.
Qed.

(** C5, amended.  Each entry is read as its string value if that is
    non-empty and as its raw bytes otherwise, and among the entries whose
    key matches [authorization] case-insensitively the first one that
    carries a value wins; matching entries with neither a string value nor
    raw bytes are passed over. *)
Theorem lookup_first_valued_match_wins
    (hm : HeaderMap) (pre post : list HeaderValue) (h : HeaderValue) :
  hm_Headers hm = (pre ++ h :: post)%list ->
  (forall h', In h' pre -> keyMatches h' headerAuth -> emptyEntry h') ->
  keyMatches h headerAuth ->
  ~ emptyEntry h ->
  getHeaderValueFromHeaderMap (Some hm) headerAuth
  = (if String.eqb (hv_Value h) "" then string_of_bytes (hv_RawValue h)
     else hv_Value h).
Proof.
  intros E Hpre Hk Hne. simpl. rewrite E.
  rewrite headerLoop_skip.
  - rewrite headerLoop_hit; try assumption.
    + unfold preferredValue. destruct (hv_Value h); reflexivity.
    + intros Hv. apply Hne, emptyEntry_preferred, Hv.
  - intros h' Hin Hm. apply emptyEntry_preferred, Hpre; assumption.
Qed.

Lemma lookup_first_valued_match_wins_witness :
  getHeaderValueFromHeaderMap
    (Some (mkHeaderMap
       [ mkHeaderValue "host" "example.com" [];
         mkHeaderValue "AUTHORIZATION" "" [];
         mkHeaderValue "Authorization" "" (bytes_of_string "Bearer raw");
         mkHeaderValue "authorization" "Bearer late" [] ]))
    headerAuth
  = "Bearer raw".
Proof.
  apply (@lookup_first_valued_match_wins
           (mkHeaderMap
              [ mkHeaderValue "host" "example.com" [];
                mkHeaderValue "AUTHORIZATION" "" [];
                mkHeaderValue "Authorization" "" (bytes_of_string "Bearer raw");
                mkHeaderValue "authorization" "Bearer late" [] ])
           [ mkHeaderValue "host" "example.com" [];
             mkHeaderValue "AUTHORIZATION" "" [] ]
           [ mkHeaderValue "authorization" "Bearer late" [] ]
           (mkHeaderValue "Authorization" "" (bytes_of_string "Bearer raw"))).
  - reflexivity.
  - intros h' [<-|[<-|[]]] Hm.
    + vm_compute in Hm. discriminate Hm.
    + split; reflexivity.
  - reflexivity.
  - intros [_ Hraw]. vm_compute in Hraw. discriminate Hraw.
Defined.

(** ** The shared decision *)

Section AdapterFacts.

Context {L : JwtLibrary}.

Lemma Check_decide (s : calloutServer) (req : option CheckRequest) :
  Check s req = (renderCheck (decide (publicKey s) (checkHeaders req)), None).
Proof.
  unfold Check, decide, bearerFromRequest, checkHeaders.
  destruct (bearerFromHeaderMap _) as [bearer|e]; [|reflexivity].
  destruct (jwt_Parse _ _ _ _) as [token|e]; [|reflexivity].
  unfold Token_Subject. destruct (tok_Subject token) as [[|c sub]|]; reflexivity.
Qed.

Lemma handleRequestHeaders_decide (s : calloutServer) (headers : option HttpHeaders) :
  handleRequestHeaders s headers
  = (Some (renderProcess (decide (publicKey s) (HttpHeaders_GetHeaders headers))),
     None).
Proof.
  unfold handleRequestHeaders, decide.
  destruct (bearerFromHeaderMap _) as [bearer|e]; [|reflexivity].
  destruct (jwt_Parse _ _ _ _) as [token|e]; [|reflexivity].
  unfold Token_Subject. destruct (tok_Subject token) as [[|c sub]|]; reflexivity.
Qed.

Lemma decide_identity (key : rsa_PublicKey) (headers : option HeaderMap)
    (bearer sub : string) (token : Token) :
  getHeaderValueFromHeaderMap headers headerAuth = "Bearer " ++ bearer ->
  jwt_Parse (bytes_of_string bearer) jwa_RS256 key true = Ok token ->
  tok_Subject token = Some sub -> sub <> "" ->
  decide key headers = Identity sub.
Proof.
  intros Hv Hp Hs Hne. unfold decide.
  rewrite (bearerFromHeaderMap_bearer _ Hv), Hp, Hs.
  destruct sub; [contradiction|reflexivity].
Qed.

Lemma decide_rejected (key : rsa_PublicKey) (headers : option HeaderMap) (r : string) :
  Fails key headers r <-> decide key headers = Rejected r.
Proof.
  unfold decide. split.
  - intros [r' He | bearer r' Hb Hp | bearer token Hb Hp Hs].
    + rewrite He. reflexivity.
    + rewrite Hb, Hp. reflexivity.
    + rewrite Hb, Hp. destruct Hs as [-> | ->]; reflexivity.
  - destruct (bearerFromHeaderMap headers) as [bearer|e] eqn:Hb.
    + destruct (jwt_Parse _ _ _ _) as [token|e] eqn:Hp.
      * destruct (tok_Subject token) as [[|c sub]|] eqn:Hs; intros [= <-].
        -- eapply FailsSubject; eauto.
        -- eapply FailsSubject; eauto.
      * intros [= <-]. eapply FailsValidation; eauto.
    + intros [= <-]. apply FailsExtraction, Hb.
Qed.

Lemma handleProcessingRequest_headers (s : calloutServer) (headers : HttpHeaders) :
  handleProcessingRequest s (event (ProcessingRequest_RequestHeaders (Some headers)))
  = handleRequestHeaders s (Some headers).
Proof. reflexivity. Qed.

Lemma handleProcessingRequest_other (s : calloutServer)
    (ev : ProcessingRequest_Request) :
  requestHeadersOf ev = None ->
  handleProcessingRequest s (event ev) = (Some (passThrough (kindOf ev)), None).
Proof.
  unfold handleProcessingRequest, GetRequestHeaders, event; simpl.
  destruct ev as [[h|]|h|b|b|t|t]; simpl; intros H; try discriminate; reflexivity.
Qed.

End AdapterFacts.

Lemma bytes_of_string_inj (a b : string) :
  bytes_of_string a = bytes_of_string b -> a = b.
Proof.
  unfold bytes_of_string. intros H.
  rewrite <- (string_of_list_byte_of_string a), <- (string_of_list_byte_of_string b).
  f_equal. exact H.
Qed.

Lemma renderCheck_inj (d d' : Decision) : renderCheck d = renderCheck d' -> d = d'.
Proof.
  destruct d, d'; simpl; unfold buildOkResponse, buildDeniedResponse;
    intros H; injection H; intros; subst; try reflexivity; discriminate.
Qed.

Lemma renderProcess_inj (d d' : Decision) : renderProcess d = renderProcess d' -> d = d'.
Proof.
  destruct d as [sub|r], d' as [sub'|r']; simpl;
    unfold buildRequestHeadersProcessingResponse,
           buildImmediateDeniedProcessingResponse, Sprintf_denied;
    intros H; try discriminate.
  - injection H; intros; subst; reflexivity.
  - injection H as H.
    change (bytes_of_string r = bytes_of_string r') in H.
    apply bytes_of_string_inj in H. subst. reflexivity.
Qed.

(** ** The Check and Process adapters on request headers *)

(** C1.  When the authorization header carries a token that the library
    verifies against the configured key with RS256 and validation on, and
    the token's subject is non-empty, both Check and the Process adapter's
    request-headers handling allow, with the single header instruction
    "set x-uid to the subject, append = false". *)
Theorem valid_token_allows {L : JwtLibrary} (s : calloutServer)
    (headers : option HeaderMap) (bearer sub : string) (token : Token) :
  getHeaderValueFromHeaderMap headers headerAuth = "Bearer " ++ bearer ->
  jwt_Parse (bytes_of_string bearer) "RS256" (publicKey s) true = Ok token ->
  tok_Subject token = Some sub ->
  sub <> "" ->
  (forall req, checkHeaders req = headers ->
     Check s req
     = ({| cresp_Status := {| st_Code := 0; st_Message := "" |};
           cresp_HttpResponse :=
             CheckResponse_OkResponse {| ok_Headers := [identityHeader sub] |} |},
        None)) /\
  (forall hh, hh_Headers hh = headers ->
     handleProcessingRequest s (event (ProcessingRequest_RequestHeaders (Some hh)))
     = (Some (ProcessingResponse_RequestHeaders
                {| hresp_Response :=
                     Some {| common_Status := CommonResponse_CONTINUE;
                             common_HeaderMutation :=
                               Some {| hmut_SetHeaders := [identityHeader sub];
                                       hmut_RemoveHeaders := [] |} |} |}),
        None)).
Proof.
  intros Hv Hp Hs Hne. split.
  - intros req <-. rewrite Check_decide.
    rewrite (decide_identity _ _ Hv Hp Hs Hne). reflexivity.
  - intros hh <-. rewrite handleProcessingRequest_headers, handleRequestHeaders_decide.
    simpl HttpHeaders_GetHeaders.
    rewrite (decide_identity _ _ Hv Hp Hs Hne). reflexivity.
Qed.

Lemma valid_token_allows_witness :
  Check (L := Sample.library) Sample.server
    (Sample.checkRequest (Sample.authHeaders "Bearer alice.token"))
  = (buildOkResponse "alice", None) /\
  handleProcessingRequest (L := Sample.library) Sample.server
    (Sample.headersEvent (Sample.authHeaders "Bearer alice.token"))
  = (Some (buildRequestHeadersProcessingResponse "alice"), None).
Proof.
  destruct (@valid_token_allows Sample.library Sample.server
              (Sample.authHeaders "Bearer alice.token") "alice.token" "alice"
              (mkToken (Some "alice") None None None)
              eq_refl eq_refl eq_refl ltac:(discriminate)) as [HC HP].
  split.
  - apply HC. reflexivity.
  - apply (HP (mkHttpHeaders (Sample.authHeaders "Bearer alice.token") false)).
    reflexivity.
Defined.

(** C2.  When the token parses and verifies but its subject is absent or
    empty, Check denies with reason "subject is missing" and the Process
    adapter answers the request-headers event with the immediate denial of
    the same reason. *)
Theorem missing_subject_denies {L : JwtLibrary} (s : calloutServer)
    (headers : option HeaderMap) (bearer : string) (token : Token) :
  getHeaderValueFromHeaderMap headers headerAuth = "Bearer " ++ bearer ->
  jwt_Parse (bytes_of_string bearer) "RS256" (publicKey s) true = Ok token ->
  tok_Subject token = None \/ tok_Subject token = Some "" ->
  (forall req, checkHeaders req = headers ->
     Check s req
     = ({| cresp_Status := {| st_Code := 7; st_Message := "subject is missing" |};
           cresp_HttpResponse :=
             CheckResponse_DeniedResponse
               {| denied_Status := 403;
                  denied_Body := "denied: subject is missing" |} |},
        None)) /\
  (forall hh, hh_Headers hh = headers ->
     handleProcessingRequest s (event (ProcessingRequest_RequestHeaders (Some hh)))
     = (Some (immediateDenial "subject is missing"), None)).
Proof.
  intros Hv Hp Hs.
  assert (decide (publicKey s) headers = Rejected "subject is missing") as Hd.
  { apply decide_rejected.
    eapply FailsSubject;
      [apply bearerFromHeaderMap_bearer, Hv | exact Hp | exact Hs]. }
  split.
  - intros req <-. rewrite Check_decide, Hd. reflexivity.
  - intros hh <-. rewrite handleProcessingRequest_headers, handleRequestHeaders_decide.
    simpl HttpHeaders_GetHeaders. rewrite Hd. reflexivity.
Qed.

Lemma missing_subject_denies_witness :
  Check (L := Sample.library) Sample.server
    (Sample.checkRequest (Sample.authHeaders "Bearer anon.token"))
  = (buildDeniedResponse 7 "subject is missing", None) /\
  handleProcessingRequest (L := Sample.library) Sample.server
    (Sample.headersEvent (Sample.authHeaders "Bearer empty.token"))
  = (Some (immediateDenial "subject is missing"), None).
Proof.
  split.
  - apply (@missing_subject_denies Sample.library Sample.server
             (Sample.authHeaders "Bearer anon.token") "anon.token"
             (mkToken None None None None)
             eq_refl eq_refl (or_introl eq_refl)).
    reflexivity.
  - apply (proj2 (@missing_subject_denies Sample.library Sample.server
             (Sample.authHeaders "Bearer empty.token") "empty.token"
             (mkToken (Some "") None None None)
             eq_refl eq_refl (or_intror eq_refl))
             (mkHttpHeaders (Sample.authHeaders "Bearer empty.token") false)).
    reflexivity.
Defined.

(** C6.  When extraction or validation fails with reason [r], Check returns
    no error and a response with the permission-denied code, message [r],
    HTTP status Forbidden and body ["denied: "] followed by [r]. *)
Theorem Check_failure_response {L : JwtLibrary} (s : calloutServer)
    (req : option CheckRequest) (r : string) :
  Fails (publicKey s) (checkHeaders req) r ->
  Check s req
  = ({| cresp_Status := {| st_Code := 7; st_Message := r |};
        cresp_HttpResponse :=
          CheckResponse_DeniedResponse
            {| denied_Status := 403; denied_Body := "denied: " ++ r |} |},
     None).
Proof.
  intros Hf. apply decide_rejected in Hf. rewrite Check_decide, Hf. reflexivity.
Qed.

Lemma Check_failure_response_witness :
  Check (L := Sample.library) Sample.server
    (Sample.checkRequest (Sample.authHeaders "Bearer two.parts"))
  = ({| cresp_Status := {| st_Code := 7; st_Message := "token is malformed" |};
        cresp_HttpResponse :=
          CheckResponse_DeniedResponse
            {| denied_Status := 403;
               denied_Body := "denied: token is malformed" |} |},
     None).
Proof.
  apply (@Check_failure_response Sample.library Sample.server
           (Sample.checkRequest (Sample.authHeaders "Bearer two.parts"))
           "token is malformed").
  apply (@FailsValidation Sample.library Sample.key
           (Sample.authHeaders "Bearer two.parts") "two.parts" "token is malformed");
    reflexivity.
Defined.

(** C9.  Check and the request-headers handling of Process take the same
    decision on the same headers: each renders [decide], so one allows with
    subject [sub] exactly when the other does, and one denies with reason
    [r] exactly when the other does. *)
Theorem adapters_share_decision {L : JwtLibrary} (s : calloutServer)
    (headers : option HeaderMap) (req : option CheckRequest) (hh : HttpHeaders) :
  checkHeaders req = headers ->
  hh_Headers hh = headers ->
  Check s req = (renderCheck (decide (publicKey s) headers), None) /\
  handleRequestHeaders s (Some hh)
  = (Some (renderProcess (decide (publicKey s) headers)), None) /\
  (forall sub,
     Check s req = (buildOkResponse sub, None) <->
     handleRequestHeaders s (Some hh)
     = (Some (buildRequestHeadersProcessingResponse sub), None)) /\
  (forall r,
     Check s req = (buildDeniedResponse codes_PermissionDenied r, None) <->
     handleRequestHeaders s (Some hh)
     = (Some (buildImmediateDeniedProcessingResponse r), None)).
Proof.
  intros <- Hh.
  pose proof (Check_decide s req) as HC.
  pose proof (handleRequestHeaders_decide s (Some hh)) as HP.
  simpl HttpHeaders_GetHeaders in HP. rewrite Hh in HP.
  set (d := decide (publicKey s) (checkHeaders req)) in *.
  split; [exact HC|]. split; [exact HP|]. rewrite HC, HP.
  assert (forall d', (renderCheck d, @None error) = (renderCheck d', None) <->
                     (Some (renderProcess d), @None error)
                     = (Some (renderProcess d'), None)) as Hiff.
  { intros d'. split; intros H.
    - injection H as H. apply renderCheck_inj in H. rewrite H. reflexivity.
    - injection H as H. apply renderProcess_inj in H. rewrite H. reflexivity. }
  split.
  - intros sub. apply (Hiff (Identity sub)).
  - intros r. apply (Hiff (Rejected r)).
Qed.

Lemma adapters_share_decision_witness :
  Check (L := Sample.library) Sample.server
    (Sample.checkRequest (Sample.authHeaders "Basic dXNlcg=="))
  = (buildDeniedResponse 7 "authorization header is invalid", None) /\
  handleRequestHeaders (L := Sample.library) Sample.server
    (Some (mkHttpHeaders (Sample.authHeaders "Basic dXNlcg==") true))
  = (Some (buildImmediateDeniedProcessingResponse "authorization header is invalid"),
     None).
Proof.
  destruct (@adapters_share_decision Sample.library Sample.server
              (Sample.authHeaders "Basic dXNlcg==")
              (Sample.checkRequest (Sample.authHeaders "Basic dXNlcg=="))
              (mkHttpHeaders (Sample.authHeaders "Basic dXNlcg==") true)
              eq_refl eq_refl) as (HC & HP & _ & _).
  split; [exact HC | exact HP].
Defined.

(** C10.  A Check request whose attribute bundle, inner request, HTTP
    request or header map is absent, or whose [authorization] entries all
    carry neither a string value nor raw bytes, is answered, without any
    error, by the denial for a missing authorization header. *)
Theorem Check_absent_headers_denied {L : JwtLibrary} (s : calloutServer)
    (req : option CheckRequest) :
  GetAttributes req = None \/
  GetRequest (GetAttributes req) = None \/
  GetHttp (GetRequest (GetAttributes req)) = None \/
  checkHeaders req = None \/
  (exists hm, checkHeaders req = Some hm /\
     forall h, In h (hm_Headers hm) -> keyMatches h headerAuth -> emptyEntry h) ->
  Check s req
  = ({| cresp_Status :=
          {| st_Code := 7; st_Message := "authorization header is missing" |};
        cresp_HttpResponse :=
          CheckResponse_DeniedResponse
            {| denied_Status := 403;
               denied_Body := "denied: authorization header is missing" |} |},
     None).
Proof.
  intros H.
  assert (getHeaderValueFromHeaderMap (checkHeaders req) headerAuth = "") as Hv.
  { unfold checkHeaders in *.
    destruct H as [-> | [-> | [-> | [-> | (hm & -> & Hall)]]]];
      try reflexivity.
    simpl. apply headerLoop_all_empty, Hall. }
  rewrite Check_decide. unfold decide.
  rewrite (bearerFromHeaderMap_missing _ Hv). reflexivity.
Qed.

Lemma Check_absent_headers_denied_witness :
  Check (L := Sample.library) Sample.server
    (Some (mkCheckRequest (Some (mkAttributeContext None))))
  = (buildDeniedResponse 7 "authorization header is missing", None) /\
  Check (L := Sample.library) Sample.server
    (Sample.checkRequest (Some (mkHeaderMap
       [ mkHeaderValue "Authorization" "" []; mkHeaderValue "x-uid" "mallory" [] ])))
  = (buildDeniedResponse 7 "authorization header is missing", None).
Proof.
  split.
  - apply (@Check_absent_headers_denied Sample.library Sample.server
             (Some (mkCheckRequest (Some (mkAttributeContext None))))).
    right. left. reflexivity.
  - apply (@Check_absent_headers_denied Sample.library Sample.server
             (Sample.checkRequest (Some (mkHeaderMap
                [ mkHeaderValue "Authorization" "" [];
                  mkHeaderValue "x-uid" "mallory" [] ])))).
    do 4 right. eexists. split; [reflexivity|].
    intros h [<-|[<-|[]]] Hm.
    + split; reflexivity.
    + vm_compute in Hm. discriminate Hm.
Defined.

(** ** The Process stream *)

Lemma handleProcessingRequest_responds {L : JwtLibrary} (s : calloutServer)
    (req : ProcessingRequest) :
  preq_Request req <> None ->
  exists resp, handleProcessingRequest s req = (Some resp, None) /\
               respondsTo (publicKey s) req resp.
Proof.
  destruct req as [[ev|]]; [intros _|intros H; contradiction].
  destruct (requestHeadersOf ev) as [hh|] eqn:Hev.
  - destruct ev as [[hh'|]|h|b|b|t|t]; simpl in Hev; try discriminate.
    injection Hev as ->.
    change (mkProcessingRequest (Some (ProcessingRequest_RequestHeaders (Some hh))))
      with (event (ProcessingRequest_RequestHeaders (Some hh))).
    rewrite handleProcessingRequest_headers, handleRequestHeaders_decide.
    simpl HttpHeaders_GetHeaders.
    destruct (decide (publicKey s) (hh_Headers hh)) as [sub|r] eqn:Hd.
    + eexists. split; [reflexivity|]. eexists. split; [reflexivity|]. left.
      split.
      * split; [reflexivity|]. simpl. eexists. split; reflexivity.
      * intros hh' r [= <-] Hf. apply decide_rejected in Hf. congruence.
    + eexists. split; [reflexivity|]. eexists. split; [reflexivity|]. right.
      exists hh, r. split; [reflexivity|]. split; [|reflexivity].
      apply decide_rejected, Hd.
  - change (mkProcessingRequest (Some ev)) with (event ev).
    rewrite (handleProcessingRequest_other s ev Hev).
    eexists. split; [reflexivity|]. exists ev. split; [reflexivity|]. left.
    split.
    + destruct ev as [[hh|]|h|b|b|t|t]; simpl in Hev; try discriminate;
        (split; [reflexivity|]); simpl; try reflexivity;
        eexists; split; reflexivity.
    + intros hh r ->. discriminate Hev.
Qed.

Lemma ProcessLoop_all_answered {L : JwtLibrary} (s : calloutServer)
    (send : list ProcessingResponse -> ProcessingResponse -> option error)
    (ending : option error) (incoming : list ProcessingRequest) :
  (forall sent resp, send sent resp = None) ->
  (forall req, In req incoming -> preq_Request req <> None) ->
  forall sent0, exists out,
    ProcessLoop s send incoming ending sent0 = ((sent0 ++ out)%list, ending) /\
    Forall2 (respondsTo (publicKey s)) incoming out.
Proof.
  intros Hsend. induction incoming as [|req rest IH]; intros Hset sent0.
  - exists []. rewrite app_nil_r. split; [reflexivity | constructor].
  - destruct (handleProcessingRequest_responds s req) as (resp & Hh & Hr).
    { apply Hset. left; reflexivity. }
    destruct (IH (fun r Hin => Hset r (or_intror Hin)) (sent0 ++ [resp])%list)
      as (out & Hloop & Hall).
    exists (resp :: out). simpl. rewrite Hh, Hsend, Hloop, <- app_assoc.
    split; [reflexivity | constructor; assumption].
Qed.

(** C7.  Over a stream whose sends succeed, Process emits exactly one
    message per inbound event, in order: the response of the event's own
    shape (headers continue, body continue, empty trailers
    acknowledgement), or, when a request-headers event is denied, the
    immediate response with status 403 and body ["denied: <reason>"]; every
    one of the six event kinds is answered. *)
Theorem Process_answers_each_event {L : JwtLibrary} (s : calloutServer)
    (send : list ProcessingResponse -> ProcessingResponse -> option error)
    (incoming : list ProcessingRequest) (ending : option error) :
  (forall sent resp, send sent resp = None) ->
  (forall req, In req incoming -> preq_Request req <> None) ->
  exists out,
    Process s send (mkProcessStream incoming ending) = (out, ending) /\
    List.length out = List.length incoming /\
    Forall2 (respondsTo (publicKey s)) incoming out.
Proof.
  intros Hsend Hset.
  destruct (ProcessLoop_all_answered s send ending incoming Hsend Hset [])
    as (out & Hloop & Hall).
  exists out. split; [exact Hloop|]. split; [|exact Hall].
  symmetry. eapply Forall2_length, Hall.
Qed.

Lemma Process_answers_each_event_witness :
  exists out,
    Process (L := Sample.library) Sample.server (fun _ _ => None)
      (mkProcessStream
         [ Sample.headersEvent (Sample.authHeaders "Bearer alice.token");
           event (ProcessingRequest_ResponseHeaders None);
           event (ProcessingRequest_RequestBody None);
           Sample.headersEvent None;
           event (ProcessingRequest_ResponseTrailers None) ]
         None)
    = (out, None) /\
    List.length out = 5.
Proof.
  destruct (@Process_answers_each_event Sample.library Sample.server
              (fun _ _ => None)
              [ Sample.headersEvent (Sample.authHeaders "Bearer alice.token");
                event (ProcessingRequest_ResponseHeaders None);
                event (ProcessingRequest_RequestBody None);
                Sample.headersEvent None;
                event (ProcessingRequest_ResponseTrailers None) ]
              None) as (out & Hrun & Hlen & _).
  - reflexivity.
  - intros req [<-|[<-|[<-|[<-|[<-|[]]]]]]; discriminate.
  - exists out. split; [exact Hrun | exact Hlen].
Defined.

(** C8.  An event that is not a request-headers event is answered by the
    pass-through response of its kind whatever it carries, whatever the
    token library and whatever the key: no extraction or validation bears
    on it, and the answer is never an immediate response. *)
Theorem other_events_pass_through (L1 L2 : JwtLibrary) (s1 s2 : calloutServer)
    (ev : ProcessingRequest_Request) :
  kindOf ev <> KRequestHeaders ->
  handleProcessingRequest (L := L1) s1 (event ev)
  = (Some (passThrough (kindOf ev)), None) /\
  handleProcessingRequest (L := L2) s2 (event ev)
  = handleProcessingRequest (L := L1) s1 (event ev) /\
  (forall r, fst (handleProcessingRequest (L := L1) s1 (event ev))
             <> Some (ProcessingResponse_ImmediateResponse r)).
Proof.
  intros Hk.
  assert (requestHeadersOf ev = None) as Hev
    by (destruct ev; simpl in *; try reflexivity; contradiction).
  rewrite (handleProcessingRequest_other (L := L1) s1 ev Hev),
          (handleProcessingRequest_other (L := L2) s2 ev Hev).
  split; [reflexivity|]. split; [reflexivity|].
  intros r. destruct ev; simpl; discriminate.
Qed.

Lemma other_events_pass_through_witness :
  handleProcessingRequest (L := Sample.library) Sample.server
    (event (ProcessingRequest_ResponseHeaders
       (Some (mkHttpHeaders (Sample.authHeaders "Bearer forged") false))))
  = (Some (ProcessingResponse_ResponseHeaders
             {| hresp_Response := Some plainContinue |}), None).
Proof.
  apply (@other_events_pass_through Sample.library
           Sample.pinned
           Sample.server (mkCalloutServer (mkPublicKey 1 1))
           (ProcessingRequest_ResponseHeaders
              (Some (mkHttpHeaders (Sample.authHeaders "Bearer forged") false)))).
  simpl. discriminate.
Defined.

(** ** Tokens that declare another signature scheme *)

Section AlgorithmCheck.

Context {C : Wasm.TokenCodec}.



End AlgorithmCheck.




(** * Further properties of the callout server *)

(** ** How the header lookup composes *)

Lemma EqualFold_lower (s t : string) :
  strings_EqualFold s t = true <-> lowerString s = lowerString t.
Proof.
  revert t. induction s as [|c s IH]; intros [|d t]; simpl;
    try (split; [reflexivity | reflexivity]);
    try (split; intros H; discriminate H).
  rewrite andb_true_iff, Ascii.eqb_eq, IH. split.
  - intros [-> ->]. reflexivity.
  - intros H. injection H as Hc Hs. split; assumption.
Qed.

Lemma EqualFold_lower_eq (a b key : string) :
  lowerString a = lowerString b ->
  strings_EqualFold a key = strings_EqualFold b key.
Proof.
  intros E.
  destruct (strings_EqualFold a key) eqn:Ha, (strings_EqualFold b key) eqn:Hb;
    try reflexivity.
  - apply EqualFold_lower in Ha. rewrite E in Ha. apply EqualFold_lower in Ha.
    congruence.
  - apply EqualFold_lower in Hb. rewrite <- E in Hb. apply EqualFold_lower in Hb.
    congruence.
Qed.

(** X1.  Looking a key up in two header lists laid end to end gives the
    value found in the first list and, only when the first list holds no
    value under the key, the value found in the second. *)
Theorem lookup_app (a b : list HeaderValue) (key : string) :
  getHeaderValueFromHeaderMap (Some (mkHeaderMap (a ++ b)%list)) key
  = (if String.eqb (getHeaderValueFromHeaderMap (Some (mkHeaderMap a)) key) ""
     then getHeaderValueFromHeaderMap (Some (mkHeaderMap b)) key
     else getHeaderValueFromHeaderMap (Some (mkHeaderMap a)) key).
Proof.
  simpl. induction a as [|h a IH]; simpl; [reflexivity|].
  destruct (strings_EqualFold (hv_Key h) key); simpl; [|exact IH].
  destruct (String.eqb (entryValue h) "") eqn:Hv; simpl; [exact IH|].
  rewrite Hv. reflexivity.
Qed.



(** X3.  The lookup of [authorization] is insensitive to the letter case of
    header keys: two header lists whose entries agree pairwise up to the
    case of their keys give the same value. *)
Theorem lookup_key_case_insensitive (hs hs' : list HeaderValue) :
  Forall2 sameEntryUpToCase hs hs' ->
  getHeaderValueFromHeaderMap (Some (mkHeaderMap hs)) headerAuth
  = getHeaderValueFromHeaderMap (Some (mkHeaderMap hs')) headerAuth.
Proof.
  simpl. induction 1 as [|h h' hs hs' (Hk & Hv & Hr) _ IH]; simpl; [reflexivity|].
  rewrite (EqualFold_lower_eq _ _ headerAuth Hk).
  unfold entryValue. rewrite Hv, Hr, IH. reflexivity.
Qed.

Lemma lookup_key_case_insensitive_witness :
  getHeaderValueFromHeaderMap
    (Some (mkHeaderMap [mkHeaderValue "HOST" "a" []; mkHeaderValue "AuThOrIzAtIoN" "Bearer t" []]))
    headerAuth
  = getHeaderValueFromHeaderMap
      (Some (mkHeaderMap [mkHeaderValue "host" "a" []; mkHeaderValue "authorization" "Bearer t" []]))
      headerAuth.
Proof.
  apply (@lookup_key_case_insensitive
           [mkHeaderValue "HOST" "a" []; mkHeaderValue "AuThOrIzAtIoN" "Bearer t" []]
           [mkHeaderValue "host" "a" []; mkHeaderValue "authorization" "Bearer t" []]).
  repeat constructor.
Defined.

(** ** What the adapters can answer *)

Lemma decide_identity_nonempty {L : JwtLibrary} (key : rsa_PublicKey)
    (headers : option HeaderMap) (sub : string) :
  decide key headers = Identity sub -> sub <> "".
Proof.
  unfold decide.
  destruct (bearerFromHeaderMap headers) as [bearer|e]; [|discriminate].
  destruct (jwt_Parse _ _ _ _) as [token|e]; [|discriminate].
  destruct (tok_Subject token) as [[|c rest]|]; try discriminate.
  intros [= <-]. discriminate.
Qed.

(** X4.  Whatever the request, Check returns no error and one of two
    responses: status OK with the single instruction that sets [x-uid] to a
    non-empty subject, or the permission-denied status with HTTP status
    Forbidden and the status message repeated in the body after
    ["denied: "].  The identity header is never set to the empty string. *)
Theorem Check_response_shapes {L : JwtLibrary} (s : calloutServer)
    (req : option CheckRequest) :
  snd (Check s req) = None /\
  let resp := fst (Check s req) in
  match cresp_HttpResponse resp with
  | CheckResponse_OkResponse ok =>
      st_Code (cresp_Status resp) = 0%Z /\
      exists sub, sub <> "" /\ ok_Headers ok = [identityHeader sub]
  | CheckResponse_DeniedResponse denied =>
      st_Code (cresp_Status resp) = 7%Z /\
      denied_Status denied = 403%Z /\
      denied_Body denied = "denied: " ++ st_Message (cresp_Status resp)
  end.
Proof.
  rewrite Check_decide. simpl. split; [reflexivity|].
  destruct (decide (publicKey s) (checkHeaders req)) as [sub|r] eqn:Hd; simpl.
  - split; [reflexivity|]. exists sub. split; [|reflexivity].
    apply (decide_identity_nonempty _ _ Hd).
  - repeat split.
Qed.

Lemma handleProcessingRequest_shape {L : JwtLibrary} (s : calloutServer)
    (req : ProcessingRequest) :
  snd (handleProcessingRequest s req) = None /\
  match fst (handleProcessingRequest s req) with
  | Some resp => sentShape resp
  | None => preq_Request req = None
  end.
Proof.
  destruct req as [[ev|]]; [|split; reflexivity].
  destruct (requestHeadersOf ev) as [hh|] eqn:Hev.
  - destruct ev as [[hh'|]|h|b|b|t|t]; simpl in Hev; try discriminate.
    injection Hev as ->.
    change (mkProcessingRequest (Some (ProcessingRequest_RequestHeaders (Some hh))))
      with (event (ProcessingRequest_RequestHeaders (Some hh))).
    rewrite handleProcessingRequest_headers, handleRequestHeaders_decide.
    simpl. split; [reflexivity|].
    destruct (decide (publicKey s) (hh_Headers hh)) as [sub|r] eqn:Hd; simpl.
    + right. left. exists sub. split; [|reflexivity].
      apply (decide_identity_nonempty _ _ Hd).
    + right. right. exists r. reflexivity.
  - change (mkProcessingRequest (Some ev)) with (event ev).
    rewrite (handleProcessingRequest_other s ev Hev). simpl.
    split; [reflexivity|]. left. eexists. reflexivity.
Qed.

Lemma responsesTo_cons {L : JwtLibrary} (s : calloutServer)
    (req : ProcessingRequest) (rest : list ProcessingRequest) :
  responsesTo s (req :: rest)
  = (match fst (handleProcessingRequest s req) with
     | Some resp => [resp]
     | None => []
     end ++ responsesTo s rest)%list.
Proof. reflexivity. Qed.

(** The loop sends a prefix of what is owed; it stops early only at a send
    that fails, and returns that failure. *)
Lemma ProcessLoop_prefix {L : JwtLibrary} (s : calloutServer)
    (send : list ProcessingResponse -> ProcessingResponse -> option error)
    (ending : option error) (incoming : list ProcessingRequest) :
  forall sent0, exists out rest,
    fst (ProcessLoop s send incoming ending sent0) = (sent0 ++ out)%list /\
    responsesTo s incoming = (out ++ rest)%list /\
    (forall p r q, out = (p ++ r :: q)%list -> send (sent0 ++ p)%list r = None) /\
    ((rest = [] /\ snd (ProcessLoop s send incoming ending sent0) = ending) \/
     (exists resp rest' e,
        rest = resp :: rest' /\
        send (sent0 ++ out)%list resp = Some e /\
        snd (ProcessLoop s send incoming ending sent0) = Some e)).
Proof.
  induction incoming as [|req more IH]; intros sent0.
  - exists [], []. simpl. rewrite app_nil_r. repeat split.
    + intros p r q E. destruct p; discriminate E.
    + left. split; reflexivity.
  - rewrite responsesTo_cons. simpl ProcessLoop.
    destruct (handleProcessingRequest_shape s req) as [Herr _].
    destruct (handleProcessingRequest s req) as [[resp|] e]; simpl in Herr; subst e;
      simpl fst.
    + destruct (send sent0 resp) as [e|] eqn:Hsend.
      * exists [], (resp :: responsesTo s more). simpl. rewrite app_nil_r.
        repeat split.
        -- intros p r q E. destruct p; discriminate E.
        -- right. exists resp, (responsesTo s more), e. repeat split. exact Hsend.
      * destruct (IH (sent0 ++ [resp])%list) as (out & rest & Hfst & Hresp & Hok & Hend).
        exists (resp :: out), rest. rewrite Hfst, <- app_assoc. simpl.
        rewrite Hresp. split; [reflexivity|]. split; [reflexivity|]. split.
        -- intros p r q E. destruct p as [|x p]; simpl in E.
           ++ injection E as <- _. rewrite app_nil_r. exact Hsend.
           ++ injection E as <- E. specialize (Hok p r q E).
              rewrite <- app_assoc in Hok. exact Hok.
        -- destruct Hend as [[-> Hsnd] | (r1 & rest' & e & -> & Hs & Hsnd)].
           ++ left. split; [reflexivity | exact Hsnd].
           ++ right. exists r1, rest', e. rewrite <- app_assoc in Hs.
              repeat split; assumption.
    + destruct (IH sent0) as (out & rest & Hfst & Hresp & Hok & Hend).
      exists out, rest. simpl. repeat split; assumption.
Qed.

(** X5.  Process sends, in order, a prefix of the responses owed to the
    inbound events, and every message it sent was accepted by the stream.
    It sends all of them and returns how the stream ended (nil at end of
    stream, the receive error otherwise), unless a send fails: then it stops
    at once, leaves the remaining events unanswered and returns that send
    error.  It never returns an error of its own. *)
Theorem Process_stops_at_first_send_failure {L : JwtLibrary} (s : calloutServer)
    (send : list ProcessingResponse -> ProcessingResponse -> option error)
    (stream : ProcessStream) :
  exists out rest,
    fst (Process s send stream) = out /\
    responsesTo s (stream_incoming stream) = (out ++ rest)%list /\
    (forall p r q, out = (p ++ r :: q)%list -> send p r = None) /\
    ((rest = [] /\ snd (Process s send stream) = stream_ending stream) \/
     (exists resp rest' e,
        rest = resp :: rest' /\
        send out resp = Some e /\
        snd (Process s send stream) = Some e)).
Proof.
  destruct (ProcessLoop_prefix s send (stream_ending stream)
              (stream_incoming stream) []) as (out & rest & H).
  exists out, rest. exact H.
Qed.

Lemma responsesTo_shapes {L : JwtLibrary} (s : calloutServer)
    (incoming : list ProcessingRequest) :
  Forall sentShape (responsesTo s incoming).
Proof.
  induction incoming as [|req more IH]; [constructor|].
  rewrite responsesTo_cons. apply Forall_app. split; [|exact IH].
  destruct (handleProcessingRequest_shape s req) as [_ Hshape].
  destruct (fst (handleProcessingRequest s req)); constructor; [exact Hshape|].
  constructor.
Qed.

(** X6.  Every message Process sends is a pass-through response, the
    continue response that sets [x-uid] to a non-empty subject, or an
    immediate 403 denial with body ["denied: <reason>"]; this holds on
    every stream, whatever the sends return. *)
Theorem Process_sends_only_known_shapes {L : JwtLibrary} (s : calloutServer)
    (send : list ProcessingResponse -> ProcessingResponse -> option error)
    (stream : ProcessStream) :
  Forall sentShape (fst (Process s send stream)).
Proof.
  destruct (ProcessLoop_prefix s send (stream_ending stream)
              (stream_incoming stream) []) as (out & rest & Hout & Hresp & _).
  unfold Process. rewrite Hout. simpl.
  pose proof (responsesTo_shapes s (stream_incoming stream)) as Hall.
  rewrite Hresp in Hall. apply Forall_app in Hall. apply Hall.
Qed.

Lemma ProcessLoop_skips_empty {L : JwtLibrary} (s : calloutServer)
    (send : list ProcessingResponse -> ProcessingResponse -> option error)
    (ending : option error) (incoming : list ProcessingRequest) :
  forall sent0,
    ProcessLoop s send (filter hasEvent incoming) ending sent0
    = ProcessLoop s send incoming ending sent0.
Proof.
  induction incoming as [|req more IH]; intros sent0; [reflexivity|].
  destruct req as [[ev|]]; simpl.
  - destruct (handleProcessingRequest s _) as [[resp|] [e|]]; try reflexivity.
    + destruct (send sent0 resp); [reflexivity | apply IH].
    + apply IH.
  - apply IH.
Qed.

(** X7.  A message that holds no event is passed over without a response
    and without an error: Process behaves on a stream exactly as on the
    stream with such messages removed. *)
Theorem Process_ignores_messages_without_event {L : JwtLibrary} (s : calloutServer)
    (send : list ProcessingResponse -> ProcessingResponse -> option error)
    (incoming : list ProcessingRequest) (ending : option error) :
  Process s send (mkProcessStream (filter hasEvent incoming) ending)
  = Process s send (mkProcessStream incoming ending).
Proof. apply ProcessLoop_skips_empty. Qed.

(** * Further properties of the wasm plugin *)

(** ** Splitting a token at its dots *)

Lemma Split1_nonempty (s : string) : strings_Split1 s "."%char <> [].
Proof.
  destruct s as [|c s]; simpl; [discriminate|].
  destruct (Ascii.eqb c "."); [discriminate|].
  destruct (strings_Split1 s "."); discriminate.
Qed.

Lemma Split1_join (s : string) : joinDots (strings_Split1 s "."%char) = s.
Proof.
  induction s as [|c s IH]; simpl; [reflexivity|].
  destruct (Ascii.eqb c ".") eqn:Hc.
  - apply Ascii.eqb_eq in Hc. subst c.
    pose proof (Split1_nonempty s) as Hne.
    destruct (strings_Split1 s ".") as [|f fs]; [contradiction|].
    change (joinDots ("" :: f :: fs)) with ("" ++ "." ++ joinDots (f :: fs)).
    rewrite IH. reflexivity.
  - pose proof (Split1_nonempty s) as Hne.
    destruct (strings_Split1 s ".") as [|f [|g fs]]; [contradiction| |].
    + simpl in *. rewrite IH. reflexivity.
    + change (joinDots (String c f :: g :: fs))
        with (String c f ++ "." ++ joinDots (g :: fs)).
      change (joinDots (f :: g :: fs)) with (f ++ "." ++ joinDots (g :: fs)) in IH.
      simpl. rewrite <- IH. reflexivity.
Qed.

Lemma Split1_dotFree (s : string) :
  forallb dotFree (strings_Split1 s "."%char) = true.
Proof.
  induction s as [|c s IH]; simpl; [reflexivity|].
  destruct (Ascii.eqb c ".") eqn:Hc; simpl; [exact IH|].
  pose proof (Split1_nonempty s) as Hne.
  destruct (strings_Split1 s ".") as [|f fs]; [contradiction|].
  simpl in *. rewrite Hc. exact IH.
Qed.

Lemma Split1_segment (p rest : string) :
  dotFree p = true ->
  strings_Split1 (p ++ "." ++ rest) "."%char = p :: strings_Split1 rest "."%char.
Proof.
  induction p as [|c p IH]; simpl; intros Hp; [reflexivity|].
  apply andb_true_iff in Hp. destruct Hp as [Hc Hp].
  apply negb_true_iff in Hc. specialize (IH Hp). simpl in IH.
  rewrite Hc, IH. reflexivity.
Qed.

Lemma Split1_single (p : string) :
  dotFree p = true -> strings_Split1 p "."%char = [p].
Proof.
  induction p as [|c p IH]; simpl; intros Hp; [reflexivity|].
  apply andb_true_iff in Hp. destruct Hp as [Hc Hp].
  apply negb_true_iff in Hc. rewrite Hc, (IH Hp). reflexivity.
Qed.

Lemma Split1_three (token p0 p1 p2 : string) :
  strings_Split1 token "."%char = [p0; p1; p2] <->
  token = p0 ++ "." ++ p1 ++ "." ++ p2 /\
  dotFree p0 = true /\ dotFree p1 = true /\ dotFree p2 = true.
Proof.
  split.
  - intros E. pose proof (Split1_join token) as Hj.
    pose proof (Split1_dotFree token) as Hd. rewrite E in Hj, Hd.
    simpl in Hd. rewrite !andb_true_iff in Hd.
    destruct Hd as (H0 & H1 & H2 & _).
    split; [symmetry; exact Hj|]. repeat split; assumption.
  - intros (-> & H0 & H1 & H2).
    rewrite (@Split1_segment p0 _ H0), (@Split1_segment p1 _ H1),
            (@Split1_single p2 H2).
    reflexivity.
Qed.

Lemma Split1_length (s : string) :
  List.length (strings_Split1 s "."%char) = S (dots s).
Proof.
  induction s as [|c s IH]; simpl; [reflexivity|].
  destruct (Ascii.eqb c "."); simpl; [rewrite IH; reflexivity|].
  pose proof (Split1_nonempty s) as Hne.
  destruct (strings_Split1 s ".") as [|f fs]; [contradiction|].
  simpl in *. exact IH.
Qed.

(** ** What the plugin lets through *)

Section PluginFacts.

Context {C : Wasm.TokenCodec}.

Lemma setIdentity_outcome (host : Wasm.Host) (sub : string) :
  fst (Wasm.setIdentity host sub) = Wasm.ActionContinue /\
  identityWritten (snd (Wasm.setIdentity host sub)) sub.
Proof.
  unfold Wasm.setIdentity, identityWritten.
  destruct (Wasm.ReplaceHttpRequestHeader host headerUID sub) as [[|m]|].
  - destruct (Wasm.AddHttpRequestHeader host headerUID sub) as [e|]; simpl;
      (split; [reflexivity|]); eexists; (split; [reflexivity|]);
      intros c Hin; simpl in Hin.
    + destruct Hin as [<-|[<-|[]]]; [left; reflexivity | right; eexists; reflexivity].
    + destruct Hin as [<-|[]]. left; reflexivity.
  - simpl. split; [reflexivity|]. eexists. split; [reflexivity|].
    intros c [<-|[]]. right; eexists; reflexivity.
  - simpl. split; [reflexivity|]. eexists. split; [reflexivity|]. intros c [].
Qed.

Lemma checkToken_verified (key : rsa_PublicKey) (host : Wasm.Host)
    (token sub : string) :
  Verified key token sub -> Wasm.checkToken key host token = Wasm.setIdentity host sub.
Proof.
  intros (p0 & p1 & p2 & hb & header & pb & claims & sig &
          Htok & H0 & H1 & H2 & Hd0 & Hj0 & Halg & Hd1 & Hj1 & Hsub & Hne & Hd2 & Hv).
  unfold Wasm.checkToken.
  rewrite (proj2 (Split1_three token p0 p1 p2) (conj Htok (conj H0 (conj H1 H2)))).
  rewrite Hd0, Hj0, Halg, String.eqb_refl. cbv beta iota zeta. cbn [negb].
  rewrite Hd1, Hj1, Hsub, (eqb_empty_false Hne). cbv beta iota zeta.
  rewrite Hd2, Hv. reflexivity.
Qed.

Lemma checkToken_cases (key : rsa_PublicKey) (host : Wasm.Host) (token : string) :
  (exists reason, Wasm.checkToken key host token = pluginDenial ("denied: " ++ reason)) \/
  (exists sub, Verified key token sub).
Proof.
  unfold Wasm.checkToken.
  destruct (strings_Split1 token ".") as [|p0 [|p1 [|p2 [|p3 rest]]]] eqn:Hs;
    try (left; exists "token format is invalid"; reflexivity).
  apply Split1_three in Hs. destruct Hs as (Htok & H0 & H1 & H2).
  destruct (Wasm.base64_DecodeString p0) as [hb|e0] eqn:Hd0;
    [|left; exists "token header is invalid"; reflexivity].
  destruct (Wasm.json_Unmarshal_header hb) as [header|e1] eqn:Hj0;
    [|left; exists "token header is invalid"; reflexivity].
  destruct (String.eqb (Wasm.Alg header) "RS256") eqn:Halg; simpl;
    [|left; exists "token header is invalid"; reflexivity].
  apply String.eqb_eq in Halg.
  destruct (Wasm.base64_DecodeString p1) as [pb|e2] eqn:Hd1;
    [|left; exists "token payload is invalid"; reflexivity].
  destruct (Wasm.json_Unmarshal_claims pb) as [claims|e3] eqn:Hj1;
    [|left; exists "token payload is invalid"; reflexivity].
  destruct (String.eqb (Wasm.Sub claims) "") eqn:Hsub;
    [left; exists "subject is missing"; reflexivity|].
  apply String.eqb_neq in Hsub.
  destruct (Wasm.base64_DecodeString p2) as [sig|e4] eqn:Hd2;
    [|left; exists "token signature is invalid"; reflexivity].
  destruct (Wasm.rsa_VerifyPKCS1v15 key _ sig) as [e5|] eqn:Hv;
    [left; exists "token signature is invalid"; reflexivity|].
  right. exists (Wasm.Sub claims), p0, p1, p2, hb, header, pb, claims, sig.
  repeat split; assumption.
Qed.

Lemma OnHttpRequestHeaders_bearer (ctx : Wasm.httpContext) (host : Wasm.Host)
    (key : rsa_PublicKey) (token : string) :
  Wasm.configuredKey ctx = Some key ->
  Wasm.GetHttpRequestHeader host headerAuth = ("Bearer " ++ token, None) ->
  Wasm.OnHttpRequestHeaders ctx host = Wasm.checkToken key host token.
Proof.
  intros Hcfg Hget. unfold Wasm.OnHttpRequestHeaders. rewrite Hcfg, Hget.
  change ("Bearer " ++ token) with (bearerPrefix ++ token).
  rewrite HasPrefix_app, TrimPrefix_app. reflexivity.
Qed.

(** The ways a request gets past extraction, or is denied before. *)
Lemma OnHttpRequestHeaders_cases (ctx : Wasm.httpContext) (host : Wasm.Host) :
  (exists reason,
     fst (Wasm.OnHttpRequestHeaders ctx host) = Wasm.ActionPause /\
     deniedWith (snd (Wasm.OnHttpRequestHeaders ctx host)) reason) \/
  (exists key token,
     Wasm.configuredKey ctx = Some key /\
     Wasm.GetHttpRequestHeader host headerAuth = ("Bearer " ++ token, None)).
Proof.
  assert (forall reason,
            deniedWith (snd (pluginDenial ("denied: " ++ reason))) reason) as Hplain.
  { intros reason. exists []. split; [reflexivity | intros c []]. }
  unfold Wasm.OnHttpRequestHeaders.
  destruct (Wasm.configuredKey ctx) as [key|];
    [|left; exists "plugin config is invalid"; split; [reflexivity | apply Hplain]].
  destruct (Wasm.GetHttpRequestHeader host headerAuth) as [v [[|m]|]] eqn:Hget.
  - left. exists "authorization header is missing". split; [reflexivity | apply Hplain].
  - left. exists "authorization header lookup failed". split; [reflexivity|].
    exists [Wasm.CallLogWarnf ("authorization header lookup failed: " ++ m)].
    split; [reflexivity|]. intros c [<-|[]]. eexists; reflexivity.
  - destruct (String.eqb v "") eqn:Hv;
      [left; exists "authorization header is missing"; split;
         [reflexivity | apply Hplain]|].
    destruct (strings_HasPrefix v bearerPrefix) eqn:Hp; simpl;
      [|left; exists "authorization header is invalid"; split;
          [reflexivity | apply Hplain]].
    right. exists key, (string_drop (String.length bearerPrefix) v).
    split; [reflexivity|]. f_equal.
    exact (HasPrefix_split v bearerPrefix Hp).
Qed.

End PluginFacts.

(** X8.  The plugin lets a request continue exactly when its configuration
    holds a key, the host returns an [authorization] value of the form
    ["Bearer " ++ token], and the token is verified: three dot-free
    segments, header algorithm RS256, non-empty subject, and an RSA
    signature that verifies under the configured key over the SHA-256
    digest of ["<header>.<payload>"]. *)
Theorem plugin_continues_iff_verified {C : Wasm.TokenCodec}
    (ctx : Wasm.httpContext) (host : Wasm.Host) :
  fst (Wasm.OnHttpRequestHeaders ctx host) = Wasm.ActionContinue <->
  exists key token sub,
    Wasm.configuredKey ctx = Some key /\
    Wasm.GetHttpRequestHeader host headerAuth = ("Bearer " ++ token, None) /\
    Verified key token sub.
Proof.
  split.
  - intros Hcont.
    destruct (OnHttpRequestHeaders_cases ctx host)
      as [(reason & Hp & _) | (key & token & Hcfg & Hget)]; [congruence|].
    rewrite (OnHttpRequestHeaders_bearer ctx host Hcfg Hget) in Hcont.
    destruct (checkToken_cases key host token) as [[reason E] | [sub Hv]].
    + rewrite E in Hcont. discriminate Hcont.
    + exists key, token, sub. repeat split; assumption.
  - intros (key & token & sub & Hcfg & Hget & Hv).
    rewrite (OnHttpRequestHeaders_bearer ctx host Hcfg Hget),
            (checkToken_verified host Hv).
    apply setIdentity_outcome.
Qed.

Lemma setIdentity_accepted {C : Wasm.TokenCodec} (host : Wasm.Host) (sub : string) :
  (forall m, ~ In (Wasm.CallLogWarnf m) (snd (Wasm.setIdentity host sub))) <->
  (Wasm.ReplaceHttpRequestHeader host "x-uid" sub = None \/
   (Wasm.ReplaceHttpRequestHeader host "x-uid" sub = Some Wasm.ErrorStatusNotFound /\
    Wasm.AddHttpRequestHeader host "x-uid" sub = None)).
Proof.
  unfold Wasm.setIdentity. change headerUID with "x-uid".
  destruct (Wasm.ReplaceHttpRequestHeader host "x-uid" sub) as [[|m0]|].
  - destruct (Wasm.AddHttpRequestHeader host "x-uid" sub) as [e|]; simpl.
    + split.
      * intros Hno. exfalso. eapply Hno. right. right. left. reflexivity.
      * intros [E | [_ E]]; discriminate E.
    + split.
      * intros _. right. split; reflexivity.
      * intros _ m [E|[E|[]]]; discriminate E.
  - simpl. split.
    + intros Hno. exfalso. eapply Hno. right. left. reflexivity.
    + intros [E | [E _]]; discriminate E.
  - simpl. split.
    + intros _. left. reflexivity.
    + intros _ m [E|[]]. discriminate E.
Qed.

(** X9.  Every request handled by the plugin ends in one of two ways.
    Either it is paused: the last host call is the 403 response with a text
    body ["denied: <reason>"], and no header write is attempted.  Or it
    continues: no response is sent and the plugin attempts to write a
    non-empty subject to [x-uid], calling [ReplaceHttpRequestHeader] first
    and after it at most [AddHttpRequestHeader] and a warning; the host
    accepted the write (the replace succeeded, or it reported not-found and
    the add succeeded) exactly when no warning is logged, and otherwise the
    request continues with the header not written. *)
Theorem plugin_outcomes {C : Wasm.TokenCodec}
    (ctx : Wasm.httpContext) (host : Wasm.Host) :
  (fst (Wasm.OnHttpRequestHeaders ctx host) = Wasm.ActionPause /\
   exists reason, deniedWith (snd (Wasm.OnHttpRequestHeaders ctx host)) reason) \/
  (fst (Wasm.OnHttpRequestHeaders ctx host) = Wasm.ActionContinue /\
   exists sub,
     sub <> "" /\
     identityWritten (snd (Wasm.OnHttpRequestHeaders ctx host)) sub /\
     ((forall m, ~ In (Wasm.CallLogWarnf m) (snd (Wasm.OnHttpRequestHeaders ctx host)))
      <->
      (Wasm.ReplaceHttpRequestHeader host "x-uid" sub = None \/
       (Wasm.ReplaceHttpRequestHeader host "x-uid" sub
        = Some Wasm.ErrorStatusNotFound /\
        Wasm.AddHttpRequestHeader host "x-uid" sub = None)))).
Proof.
  destruct (OnHttpRequestHeaders_cases ctx host)
    as [(reason & Hp & Hd) | (key & token & Hcfg & Hget)].
  - left. split; [exact Hp|]. exists reason. exact Hd.
  - rewrite (OnHttpRequestHeaders_bearer ctx host Hcfg Hget).
    destruct (checkToken_cases key host token) as [[reason E] | [sub Hv]].
    + left. rewrite E. split; [reflexivity|]. exists reason, [].
      split; [reflexivity | intros c []].
    + right. rewrite (checkToken_verified host Hv).
      split; [apply setIdentity_outcome|]. exists sub. split; [|split].
      * destruct Hv as (p0 & p1 & p2 & hb & header & pb & claims & sig & Hv).
        apply Hv.
      * apply setIdentity_outcome.
      * apply setIdentity_accepted.
Qed.

(** X10.  Past extraction, the plugin answers "token format is invalid"
    exactly to the tokens that do not have exactly two dots. *)
Theorem plugin_format_error_iff {C : Wasm.TokenCodec}
    (ctx : Wasm.httpContext) (host : Wasm.Host) (key : rsa_PublicKey)
    (token : string) :
  Wasm.configuredKey ctx = Some key ->
  Wasm.GetHttpRequestHeader host headerAuth = ("Bearer " ++ token, None) ->
  (Wasm.OnHttpRequestHeaders ctx host = pluginDenial "denied: token format is invalid"
   <-> dots token <> 2).
Proof.
  intros Hcfg Hget. rewrite (OnHttpRequestHeaders_bearer ctx host Hcfg Hget).
  pose proof (Split1_length token) as Hlen.
  unfold Wasm.checkToken.
  destruct (strings_Split1 token ".") as [|p0 [|p1 [|p2 [|p3 rest]]]] eqn:Hs;
    simpl in Hlen;
    try (split; [intros _; lia | reflexivity]).
  assert (dots token = 2) as -> by lia.
  split; [|intros Hne; contradiction].
  intros E. exfalso. revert E. unfold Wasm.deny, pluginDenial.
  destruct (Wasm.base64_DecodeString p0) as [hb|e0]; [|discriminate].
  destruct (Wasm.json_Unmarshal_header hb) as [header|e1]; [|discriminate].
  destruct (negb (String.eqb (Wasm.Alg header) "RS256")); [discriminate|].
  destruct (Wasm.base64_DecodeString p1) as [pb|e2]; [|discriminate].
  destruct (Wasm.json_Unmarshal_claims pb) as [claims|e3]; [|discriminate].
  destruct (String.eqb (Wasm.Sub claims) ""); [discriminate|].
  cbv zeta.
  destruct (Wasm.base64_DecodeString p2) as [sig|e4]; [|discriminate].
  destruct (Wasm.rsa_VerifyPKCS1v15 key _ sig) as [e5|]; [discriminate|].
  intros E. pose proof (proj1 (setIdentity_outcome host (Wasm.Sub claims))) as Hc.
  rewrite E in Hc. discriminate Hc.
Qed.

Lemma plugin_format_error_iff_witness :
  Wasm.OnHttpRequestHeaders (C := Sample.codec) Sample.context
    (Sample.host "Bearer abc.def")
  = pluginDenial "denied: token format is invalid".
Proof.
  apply (proj2 (@plugin_format_error_iff Sample.codec Sample.context
                  (Sample.host "Bearer abc.def") Sample.key "abc.def"
                  eq_refl eq_refl)).
  simpl. discriminate.
Defined.

(** X11.  For a verified token the request continues whatever the host
    answers to the header writes, and no response is sent:
    [AddHttpRequestHeader] is called exactly when
    [ReplaceHttpRequestHeader] reported that the header was not found, and
    a write that fails is only logged. *)
Theorem plugin_continues_despite_write_failure {C : Wasm.TokenCodec}
    (ctx : Wasm.httpContext) (host : Wasm.Host) (key : rsa_PublicKey)
    (token sub : string) :
  Wasm.configuredKey ctx = Some key ->
  Wasm.GetHttpRequestHeader host headerAuth = ("Bearer " ++ token, None) ->
  Verified key token sub ->
  fst (Wasm.OnHttpRequestHeaders ctx host) = Wasm.ActionContinue /\
  (In (Wasm.CallAddHttpRequestHeader "x-uid" sub)
      (snd (Wasm.OnHttpRequestHeaders ctx host))
   <-> Wasm.ReplaceHttpRequestHeader host "x-uid" sub = Some Wasm.ErrorStatusNotFound) /\
  (forall status headers body grpc,
     ~ In (Wasm.CallSendHttpResponse status headers body grpc)
          (snd (Wasm.OnHttpRequestHeaders ctx host))).
Proof.
  intros Hcfg Hget Hv.
  rewrite (OnHttpRequestHeaders_bearer ctx host Hcfg Hget),
          (checkToken_verified host Hv).
  unfold Wasm.setIdentity. change headerUID with "x-uid".
  destruct (Wasm.ReplaceHttpRequestHeader host "x-uid" sub) as [[|m]|].
  - destruct (Wasm.AddHttpRequestHeader host "x-uid" sub) as [e|]; simpl;
      (split; [reflexivity|]); split.
    + split; [reflexivity | intros _; right; left; reflexivity].
    + intros st hs b g [E|[E|[E|[]]]]; discriminate E.
    + split; [reflexivity | intros _; right; left; reflexivity].
    + intros st hs b g [E|[E|[]]]; discriminate E.
  - simpl. split; [reflexivity|]. split.
    + split; [intros [E|[E|[]]]; discriminate E | discriminate].
    + intros st hs b g [E|[E|[]]]; discriminate E.
  - simpl. split; [reflexivity|]. split.
    + split; [intros [E|[]]; discriminate E | discriminate].
    + intros st hs b g [E|[]]; discriminate E.
Qed.

Lemma plugin_continues_despite_write_failure_witness :
  fst (Wasm.OnHttpRequestHeaders (C := Sample.codec) Sample.context
         {| Wasm.GetHttpRequestHeader := fun _ => ("Bearer RS256.alice.valid", None);
            Wasm.ReplaceHttpRequestHeader :=
              fun _ _ => Some (Wasm.ErrorStatusOther "bad argument");
            Wasm.AddHttpRequestHeader := fun _ _ => None |})
  = Wasm.ActionContinue.
Proof.
  apply (@plugin_continues_despite_write_failure Sample.codec Sample.context
           {| Wasm.GetHttpRequestHeader := fun _ => ("Bearer RS256.alice.valid", None);
              Wasm.ReplaceHttpRequestHeader :=
                fun _ _ => Some (Wasm.ErrorStatusOther "bad argument");
              Wasm.AddHttpRequestHeader := fun _ _ => None |}
           Sample.key "RS256.alice.valid" "alice" eq_refl eq_refl).
  exists "RS256", "alice", "valid", (bytes_of_string "RS256"),
         (Wasm.mkJwtHeader "RS256"), (bytes_of_string "alice"),
         (Wasm.mkJwtClaims "alice"), (bytes_of_string "valid").
  repeat split; try reflexivity. discriminate.
Defined.

(** X12.  The plugin and the callout server extract the bearer token alike:
    on the same [authorization] value, where the server's extraction fails
    with reason [r] the plugin sends the 403 with body ["denied: " ++ r],
    and where the server extracts the token [t] the plugin goes on to check
    that same [t]. *)
Theorem plugin_extracts_like_server {C : Wasm.TokenCodec}
    (ctx : Wasm.httpContext) (host : Wasm.Host) (key : rsa_PublicKey)
    (headers : option HeaderMap) :
  Wasm.configuredKey ctx = Some key ->
  Wasm.GetHttpRequestHeader host headerAuth
  = (getHeaderValueFromHeaderMap headers headerAuth, None) ->
  match bearerFromHeaderMap headers with
  | Err r => Wasm.OnHttpRequestHeaders ctx host = pluginDenial ("denied: " ++ r)
  | Ok t => Wasm.OnHttpRequestHeaders ctx host = Wasm.checkToken key host t
  end.
Proof.
  intros Hcfg Hget.
  unfold Wasm.OnHttpRequestHeaders, bearerFromHeaderMap, parseBearer.
  rewrite Hcfg, Hget.
  destruct (String.eqb (getHeaderValueFromHeaderMap headers headerAuth) "");
    simpl; [reflexivity|].
  destruct (strings_HasPrefix _ bearerPrefix); reflexivity.
Qed.

Lemma plugin_extracts_like_server_witness :
  Wasm.OnHttpRequestHeaders (C := Sample.codec) Sample.context
    (Sample.host "Basic dXNlcg==")
  = pluginDenial "denied: authorization header is invalid".
Proof.
  apply (@plugin_extracts_like_server Sample.codec Sample.context
           (Sample.host "Basic dXNlcg==") Sample.key
           (Sample.authHeaders "Basic dXNlcg==") eq_refl eq_refl).
Defined.

(** * Configuration and start-up *)

(** ** Normalising the key text *)

Lemma ReplaceAll_nl_facts (s : string) :
  (hasEscapedNewline (strings_ReplaceAll_nl s) = false /\
   (hasEscapedNewline s = false -> strings_ReplaceAll_nl s = s)) /\
  forall c,
    (hasEscapedNewline (strings_ReplaceAll_nl (String c s)) = false /\
     (hasEscapedNewline (String c s) = false ->
      strings_ReplaceAll_nl (String c s) = String c s)).
Proof.
  induction s as [|d s [[IHn IHi] IHc]].
  - split; [split; reflexivity|]. intros c. split; reflexivity.
  - split; [apply IHc|].
    intros c. destruct (IHc d) as [IHdn IHdi].
    change (strings_ReplaceAll_nl (String c (String d s)))
      with (if Ascii.eqb c "\"%char && Ascii.eqb d "n"%char
            then String "010"%char (strings_ReplaceAll_nl s)
            else String c (strings_ReplaceAll_nl (String d s))).
    change (hasEscapedNewline (String c (String d s)))
      with ((Ascii.eqb c "\"%char && Ascii.eqb d "n"%char)
            || hasEscapedNewline (String d s)).
    destruct (Ascii.eqb c "\"%char && Ascii.eqb d "n"%char) eqn:Hesc.
    + split; [|discriminate].
      destruct (strings_ReplaceAll_nl s) as [|x r] eqn:Hr; [reflexivity|].
      change (hasEscapedNewline (String "010" (String x r)))
        with ((Ascii.eqb "010" "\"%char && Ascii.eqb x "n"%char)
              || hasEscapedNewline (String x r)).
      exact IHn.
    + split.
      * destruct (strings_ReplaceAll_nl (String d s)) as [|x r] eqn:Hr;
          [reflexivity|].
        change (hasEscapedNewline (String c (String x r)))
          with ((Ascii.eqb c "\"%char && Ascii.eqb x "n"%char)
                || hasEscapedNewline (String x r)).
        rewrite IHdn, orb_false_r.
        assert (x = d \/ x = "010"%char) as Hx.
        { destruct s as [|e s']; simpl in Hr.
          - injection Hr as <- _. left; reflexivity.
          - destruct (Ascii.eqb d "\" && Ascii.eqb e "n");
              injection Hr as <- _; [right | left]; reflexivity. }
        destruct Hx as [-> | ->]; [exact Hesc|].
        destruct (Ascii.eqb c "\"); reflexivity.
      * simpl orb. intros Hs. rewrite (IHdi Hs). reflexivity.
Qed.

(** X13.  Normalising the configured key text, as the server and the
    plugin both do before decoding it, leaves no backslash followed by n,
    changes nothing in a text that holds none, and is therefore idempotent. *)
Theorem ReplaceAll_nl_normalises (s : string) :
  hasEscapedNewline (strings_ReplaceAll_nl s) = false /\
  (hasEscapedNewline s = false -> strings_ReplaceAll_nl s = s) /\
  strings_ReplaceAll_nl (strings_ReplaceAll_nl s) = strings_ReplaceAll_nl s.
Proof.
  destruct (ReplaceAll_nl_facts s) as [[Hn Hi] _].
  split; [exact Hn|]. split; [exact Hi|].
  apply (proj1 (ReplaceAll_nl_facts (strings_ReplaceAll_nl s))). exact Hn.
Qed.

(** ** The plugin's start-up *)

Section LifecycleFacts.

Context {C : Wasm.TokenCodec} {K : KeyCodec} {H : Lifecycle.ConfigHost}.

Lemma loadConfig_outcomes :
  (exists err, Lifecycle.loadConfig = (None, Some err)) \/
  Lifecycle.loadConfig = (None, None) \/
  (exists key, Lifecycle.loadConfig
               = (Some (Wasm.mkPluginState (Some key) None), None)).
Proof.
  unfold Lifecycle.loadConfig.
  destruct Lifecycle.GetPluginConfiguration as [raw|e]; [|left; eexists; reflexivity].
  destruct (List.length raw =? 0)%nat; [right; left; reflexivity|].
  destruct (Lifecycle.json_Unmarshal_rawConfig raw) as [cfg|e];
    [|left; eexists; reflexivity].
  cbv zeta.
  destruct (pem_Decode _) as [block|]; [|left; eexists; reflexivity].
  destruct (negb (String.eqb (pem_Type block) "PUBLIC KEY"));
    [left; eexists; reflexivity|].
  destruct (x509_ParsePKIXPublicKey (pem_Bytes block)) as [[key|kind]|e].
  - right. right. exists key. reflexivity.
  - left. eexists; reflexivity.
  - left. eexists; reflexivity.
Qed.

End LifecycleFacts.

(** X14.  Starting the plugin from a fresh plugin context never panics and
    always reports OK, also when the configuration is missing or wrong.
    Requests then get past the configuration guard exactly when
    [loadConfig] produced a key; otherwise every request, whatever it
    carries, is denied with "plugin config is invalid". *)
Theorem plugin_start_fails_closed
    {C : Wasm.TokenCodec} {K : KeyCodec} {H : Lifecycle.ConfigHost} :
  exists ctx log,
    Lifecycle.OnPluginStart Lifecycle.NewPluginContext
    = Lifecycle.Started ctx Lifecycle.OnPluginStartStatusOK log /\
    (forall key,
       Wasm.configuredKey (Lifecycle.NewHttpContext ctx) = Some key <->
       Lifecycle.loadConfig = (Some (Wasm.mkPluginState (Some key) None), None)) /\
    ((forall key, Lifecycle.loadConfig
                  <> (Some (Wasm.mkPluginState (Some key) None), None)) ->
     forall host,
       Wasm.OnHttpRequestHeaders (Lifecycle.NewHttpContext ctx) host
       = pluginDenial "denied: plugin config is invalid").
Proof.
  unfold Lifecycle.OnPluginStart, Lifecycle.NewPluginContext.
  destruct loadConfig_outcomes as [[err E] | [E | [key E]]]; rewrite E; simpl.
  - eexists _, _. split; [reflexivity|]. split.
    + intros key. split; discriminate.
    + intros _ host. reflexivity.
  - eexists _, _. split; [reflexivity|]. split.
    + intros key. split; discriminate.
    + intros _ host. reflexivity.
  - eexists _, _. split; [reflexivity|]. split.
    + intros key'. unfold Wasm.configuredKey. simpl. split; intros [= ->]; reflexivity.
    + intros Hno. exfalso. apply (Hno key). reflexivity.
Qed.

(** X15.  The server and the plugin accept the same key material: for a
    non-empty key text, [main] sets the server up with the key [key]
    exactly when the plugin, configured with that text, loads [key]; where
    one refuses the text, so does the other. *)
Theorem server_and_plugin_load_same_key
    {K : KeyCodec} {H : Lifecycle.ConfigHost}
    (Getenv : string -> string) (raw : bytes) (cfg : Lifecycle.rawConfig) :
  Lifecycle.GetPluginConfiguration = Ok raw ->
  raw <> [] ->
  Lifecycle.json_Unmarshal_rawConfig raw = Ok cfg ->
  Getenv "PUBLIC_KEY_PEM" = Lifecycle.PublicKeyPEM cfg ->
  Lifecycle.PublicKeyPEM cfg <> "" ->
  (forall key,
     (exists port, main_setup Getenv = Ok (port, mkCalloutServer key)) <->
     Lifecycle.loadConfig = (Some (Wasm.mkPluginState (Some key) None), None)) /\
  ((exists line, main_setup Getenv = Err line) <->
   (exists err, Lifecycle.loadConfig = (None, Some err))).
Proof.
  intros Hraw Hne Hjson Henv Hpem.
  unfold main_setup, parseRSAPublicKey, Lifecycle.loadConfig.
  rewrite Hraw, Hjson, Henv, (eqb_empty_false Hpem).
  assert ((List.length raw =? 0)%nat = false) as ->
    by (destruct raw; [contradiction | reflexivity]).
  cbv zeta.
  destruct (pem_Decode _) as [block|].
  - destruct (negb (String.eqb (pem_Type block) "PUBLIC KEY")).
    + split.
      * intros key. split; [intros [port E]; discriminate E | discriminate].
      * split; intros _; eexists; reflexivity.
    + destruct (x509_ParsePKIXPublicKey (pem_Bytes block)) as [[k|kind]|e]; simpl.
      * split.
        -- intros key. split; [intros [port E] | intros E].
           ++ injection E as _ ->. reflexivity.
           ++ injection E as ->. eexists; reflexivity.
        -- split; [intros [line E] | intros [err E]]; discriminate E.
      * split.
        -- intros key. split; [intros [port E]; discriminate E | discriminate].
        -- split; intros _; eexists; reflexivity.
      * split.
        -- intros key. split; [intros [port E]; discriminate E | discriminate].
        -- split; intros _; eexists; reflexivity.
  - split.
    + intros key. split; [intros [port E]; discriminate E | discriminate].
    + split; intros _; eexists; reflexivity.
Qed.

Lemma server_and_plugin_load_same_key_witness :
  (exists port,
     main_setup (K := SampleConfig.keyCodec) SampleConfig.Getenv
     = Ok (port, mkCalloutServer Sample.key)) <->
  Lifecycle.loadConfig (K := SampleConfig.keyCodec) (H := SampleConfig.configHost)
  = (Some (Wasm.mkPluginState (Some Sample.key) None), None).
Proof.
  apply (@server_and_plugin_load_same_key SampleConfig.keyCodec
           SampleConfig.configHost SampleConfig.Getenv
           (bytes_of_string "{...}")
           (Lifecycle.mkRawConfig "-----BEGIN PUBLIC KEY-----\nMIIB")).
  - reflexivity.
  - discriminate.
  - reflexivity.
  - reflexivity.
  - discriminate.
Defined.

(** * The benchmarking client *)

(** X16.  [parseConfig] returns a configuration only when the three
    settings are all non-empty, and then returns them unchanged; otherwise
    its error names the first missing one, in the order target URL, private
    key file, subject. *)
Theorem parseConfig_requires_all (Getenv : string -> string) :
  match Client.parseConfig Getenv with
  | Ok cfg =>
      cfg = Client.mkConfig (Getenv "TARGET_URL") (Getenv "PRIVATE_KEY_PEM_FILE")
                            (Getenv "JWT_SUB") /\
      Client.TargetURL cfg <> "" /\ Client.PrivateKeyFile cfg <> "" /\
      Client.Subject cfg <> ""
  | Err e =>
      (Getenv "TARGET_URL" = "" /\ e = "target URL is required") \/
      (Getenv "TARGET_URL" <> "" /\ Getenv "PRIVATE_KEY_PEM_FILE" = "" /\
       e = "private key file is required") \/
      (Getenv "TARGET_URL" <> "" /\ Getenv "PRIVATE_KEY_PEM_FILE" <> "" /\
       Getenv "JWT_SUB" = "" /\ e = "subject is required")
  end.
Proof.
  unfold Client.parseConfig. simpl.
  destruct (String.eqb (Getenv "TARGET_URL") "") eqn:H1.
  - left. split; [apply String.eqb_eq, H1 | reflexivity].
  - apply String.eqb_neq in H1.
    destruct (String.eqb (Getenv "PRIVATE_KEY_PEM_FILE") "") eqn:H2.
    + right. left. repeat split; [exact H1 | apply String.eqb_eq, H2].
    + apply String.eqb_neq in H2.
      destruct (String.eqb (Getenv "JWT_SUB") "") eqn:H3.
      * right. right. repeat split; [exact H1 | exact H2 | apply String.eqb_eq, H3].
      * apply String.eqb_neq in H3. simpl. repeat split; assumption.
Qed.

(** X17.  Whatever the environment holds and whatever [strconv.Atoi] makes
    of it, the run configuration has a non-negative number of warm-up runs
    and a positive number of measured runs.  A WARMUP_RUNS that is set and
    parses to a value of at least 0 is used as it is, and in every other
    case the warm-up count is 5; a MEASURE_RUNS that is set and parses to a
    value above 0 is used as it is, and in every other case the measured
    count is 10. *)
Theorem parseRunConfig_bounds (Getenv : string -> string)
    (Atoi : string -> result Z) :
  let rc := Client.parseRunConfig Getenv Atoi in
  (0 <= Client.WarmupRuns rc)%Z /\ (0 < Client.MeasureRuns rc)%Z /\
  (forall v, Getenv "WARMUP_RUNS" <> "" ->
             Atoi (Getenv "WARMUP_RUNS") = Ok v -> (0 <= v)%Z ->
             Client.WarmupRuns rc = v) /\
  (Getenv "WARMUP_RUNS" = "" \/
   (exists e, Atoi (Getenv "WARMUP_RUNS") = Err e) \/
   (exists v, Atoi (Getenv "WARMUP_RUNS") = Ok v /\ (v < 0)%Z) ->
   Client.WarmupRuns rc = 5%Z) /\
  (forall v, Getenv "MEASURE_RUNS" <> "" ->
             Atoi (Getenv "MEASURE_RUNS") = Ok v -> (0 < v)%Z ->
             Client.MeasureRuns rc = v) /\
  (Getenv "MEASURE_RUNS" = "" \/
   (exists e, Atoi (Getenv "MEASURE_RUNS") = Err e) \/
   (exists v, Atoi (Getenv "MEASURE_RUNS") = Ok v /\ (v <= 0)%Z) ->
   Client.MeasureRuns rc = 10%Z).
Proof.
  unfold Client.parseRunConfig. simpl.
  destruct (String.eqb (Getenv "WARMUP_RUNS") "") eqn:Hw;
    [apply String.eqb_eq in Hw | apply String.eqb_neq in Hw];
    (destruct (String.eqb (Getenv "MEASURE_RUNS") "") eqn:Hm;
       [apply String.eqb_eq in Hm | apply String.eqb_neq in Hm]);
    simpl;
    destruct (Atoi (Getenv "WARMUP_RUNS")) as [w|ew] eqn:Haw;
    destruct (Atoi (Getenv "MEASURE_RUNS")) as [m|em] eqn:Ham;
    try (destruct (0 <=? w)%Z eqn:Hcw;
         [apply Z.leb_le in Hcw | apply Z.leb_gt in Hcw]);
    try (destruct (0 <? m)%Z eqn:Hcm;
         [apply Z.ltb_lt in Hcm | apply Z.ltb_ge in Hcm]);
    repeat split; try lia;
    try (intros v Hne Hv Hpos; congruence);
    try (intros v Hne Hv Hpos; injection Hv as <-; lia);
    try (intros v Hne Hv Hpos; injection Hv as <-; reflexivity);
    try (intros [E | [[e E] | (v & E & Hv)]];
         first [ contradiction | discriminate E | reflexivity
               | injection E as <-; lia ]).
Qed.

Lemma parseRunConfig_bounds_witness :
  Client.WarmupRuns (Client.parseRunConfig SampleConfig.Getenv SampleConfig.Atoi)
  = 0%Z /\
  Client.MeasureRuns (Client.parseRunConfig SampleConfig.Getenv SampleConfig.Atoi)
  = 1%Z.
Proof.
  destruct (parseRunConfig_bounds SampleConfig.Getenv SampleConfig.Atoi)
    as (_ & _ & Hw & _ & Hm & _).
  split.
  - apply Hw; [discriminate | reflexivity | lia].
  - apply Hm; [discriminate | reflexivity | lia].
Defined.

(** ** Summarising latencies *)

Lemma insertSorted_perm (d : Z) (l : list Z) :
  Permutation (Client.insertSorted d l) (d :: l).
Proof.
  induction l as [|x l IH]; simpl; [apply Permutation_refl|].
  destruct (d <=? x)%Z; [apply Permutation_refl|].
  apply perm_trans with (x :: d :: l); [apply perm_skip, IH | apply perm_swap].
Qed.

Lemma sort_Slice_perm (l : list Z) : Permutation (Client.sort_Slice l) l.
Proof.
  induction l as [|d l IH]; simpl; [apply perm_nil|].
  apply perm_trans with (d :: Client.sort_Slice l);
    [apply insertSorted_perm | apply perm_skip, IH].
Qed.

Lemma insertSorted_sorted (d : Z) (l : list Z) :
  StronglySorted Z.le l -> StronglySorted Z.le (Client.insertSorted d l).
Proof.
  induction 1 as [|x l Hs IH Hall]; simpl.
  - constructor; constructor.
  - destruct (d <=? x)%Z eqn:Hc.
    + apply Z.leb_le in Hc. constructor; [constructor; assumption|].
      constructor; [exact Hc|].
      eapply Forall_impl; [|exact Hall]. intros y Hy. simpl in Hy. lia.
    + apply Z.leb_gt in Hc. constructor; [exact IH|].
      apply (Permutation_Forall (Permutation_sym (insertSorted_perm d l))).
      constructor; [lia | exact Hall].
Qed.

Lemma sort_Slice_sorted (l : list Z) : StronglySorted Z.le (Client.sort_Slice l).
Proof.
  induction l as [|d l IH]; simpl; [constructor | apply insertSorted_sorted, IH].
Qed.

Lemma sorted_unique (l l' : list Z) :
  StronglySorted Z.le l -> StronglySorted Z.le l' -> Permutation l l' -> l = l'.
Proof.
  intros Hs. revert l'. induction Hs as [|x l Hs IH Hall]; intros l' Hs' Hp.
  - apply Permutation_nil in Hp. symmetry; exact Hp.
  - destruct Hs' as [|x' l' Hs' Hall'].
    + apply Permutation_sym, Permutation_nil in Hp. discriminate Hp.
    + assert (x = x') as <-.
      { assert (In x' (x :: l)) as Hin
          by (apply (Permutation_in _ (Permutation_sym Hp)); left; reflexivity).
        assert (In x (x' :: l')) as Hin'
          by (apply (Permutation_in _ Hp); left; reflexivity).
        rewrite Forall_forall in Hall, Hall'.
        destruct Hin as [E|Hin]; [exact E|].
        destruct Hin' as [E|Hin']; [symmetry; exact E|].
        specialize (Hall _ Hin). specialize (Hall' _ Hin'). lia. }
      f_equal. apply IH; [exact Hs'|]. apply (Permutation_cons_inv Hp).
Qed.

Lemma sort_Slice_order_independent (l l' : list Z) :
  Permutation l l' -> Client.sort_Slice l = Client.sort_Slice l'.
Proof.
  intros Hp. apply sorted_unique; try apply sort_Slice_sorted.
  apply perm_trans with l; [apply sort_Slice_perm|].
  apply perm_trans with l'; [exact Hp | apply Permutation_sym, sort_Slice_perm].
Qed.

Lemma sorted_nth_le (l : list Z) :
  StronglySorted Z.le l ->
  forall i j, (i <= j < List.length l)%nat -> (nth i l 0 <= nth j l 0)%Z.
Proof.
  induction 1 as [|x l Hs IH Hall]; intros i j Hij; simpl in Hij; [lia|].
  destruct j as [|j].
  - assert (i = 0)%nat as -> by lia. simpl. lia.
  - destruct i as [|i]; simpl.
    + rewrite Forall_forall in Hall. apply Hall, nth_In. lia.
    + apply IH. lia.
Qed.

Lemma sorted_bounds (l : list Z) (d : Z) :
  StronglySorted Z.le l -> In d l ->
  (nth 0 l 0 <= d <= nth (List.length l - 1) l 0)%Z.
Proof.
  intros Hs Hin. destruct (In_nth l d 0%Z Hin) as (k & Hk & <-).
  split; apply (sorted_nth_le Hs); lia.
Qed.

Lemma int64_wrap_small (z : Z) :
  (- 2 ^ 63 <= z < 2 ^ 63)%Z -> Client.int64_wrap z = z.
Proof.
  intros Hz. unfold Client.int64_wrap. rewrite Z.mod_small; lia.
Qed.

Lemma sumZ_nonneg (l : list Z) : (forall d, In d l -> (0 <= d)%Z) -> (0 <= sumZ l)%Z.
Proof.
  induction l as [|x l IH]; simpl; intros H; [lia|].
  pose proof (H x (or_introl eq_refl)).
  pose proof (IH (fun d Hd => H d (or_intror Hd))). lia.
Qed.

Lemma totalNanoseconds_exact (l : list Z) :
  (forall d, In d l -> (0 <= d)%Z) -> (sumZ l < 2 ^ 63)%Z ->
  Client.totalNanoseconds l = sumZ l.
Proof.
  unfold Client.totalNanoseconds.
  assert (forall acc, (0 <= acc)%Z -> (forall d, In d l -> (0 <= d)%Z) ->
                      (acc + sumZ l < 2 ^ 63)%Z ->
                      fold_left (fun total d => Client.int64_wrap (total + d)) l acc
                      = (acc + sumZ l)%Z) as Hgen.
  { induction l as [|x l IH]; intros acc Hacc Hpos Hsum; simpl in *; [lia|].
    pose proof (Hpos x (or_introl eq_refl)) as Hx.
    pose proof (sumZ_nonneg l (fun d Hd => Hpos d (or_intror Hd))) as Hl.
    rewrite int64_wrap_small by lia.
    rewrite IH; [lia | lia | intros d Hd; apply Hpos; right; exact Hd | lia]. }
  intros Hpos Hsum. rewrite Hgen; [lia | lia | exact Hpos | lia].
Qed.

Lemma sumZ_perm (l l' : list Z) : Permutation l l' -> sumZ l = sumZ l'.
Proof.
  induction 1; simpl; lia.
Qed.

Lemma sumZ_bounds (l : list Z) (lo hi : Z) :
  (forall d, In d l -> (lo <= d <= hi)%Z) ->
  (Z.of_nat (List.length l) * lo <= sumZ l <= Z.of_nat (List.length l) * hi)%Z.
Proof.
  induction l as [|x l IH]; intros H; [simpl; lia|].
  pose proof (H x (or_introl eq_refl)).
  pose proof (IH (fun d Hd => H d (or_intror Hd))).
  change (sumZ (x :: l)) with (x + sumZ l)%Z.
  rewrite length_cons, Nat2Z.inj_succ. lia.
Qed.

Lemma two_entries_le_sum (l : list Z) :
  (forall d, In d l -> (0 <= d)%Z) ->
  forall i j, (i < j < List.length l)%nat -> (nth i l 0 + nth j l 0 <= sumZ l)%Z.
Proof.
  induction l as [|x l IH]; intros Hpos i j Hij; simpl in Hij; [lia|].
  assert (forall d, In d l -> (0 <= d)%Z) as Hpos'
    by (intros d Hd; apply Hpos; right; exact Hd).
  pose proof (Hpos x (or_introl eq_refl)) as Hx.
  destruct j as [|j]; [lia|]. destruct i as [|i]; simpl.
  - assert (nth j l 0 <= sumZ l)%Z; [|lia].
    clear IH Hx Hpos. revert j Hij.
    induction l as [|y l IHl]; intros j Hij; simpl in *; [lia|].
    pose proof (Hpos' y (or_introl eq_refl)).
    pose proof (sumZ_nonneg l (fun d Hd => Hpos' d (or_intror Hd))).
    destruct j as [|j]; [lia|].
    assert (nth j l 0 <= sumZ l)%Z; [|lia].
    apply IHl; [intros d Hd; apply Hpos'; right; exact Hd | lia].
  - specialize (IH Hpos' i j ltac:(lia)). lia.
Qed.

Lemma summarizeLatencies_nonempty (l : list Z) :
  l <> [] ->
  let s := Client.sort_Slice l in
  let n := List.length l in
  Client.summarizeLatencies l
  = (s, (Z.quot (Client.totalNanoseconds s) (Z.of_nat n),
         (if (n mod 2 =? 0)%nat
          then Z.quot (Client.int64_wrap (nth (n / 2 - 1) s 0 + nth (n / 2) s 0)) 2
          else nth (n / 2) s 0)%Z,
         nth 0 s 0%Z, nth (n - 1) s 0%Z)).
Proof.
  intros Hne. unfold Client.summarizeLatencies.
  destruct l as [|x l]; [contradiction|].
  change (List.length (x :: l) =? 0)%nat with false. cbv iota zeta.
  rewrite (Permutation_length (sort_Slice_perm (x :: l))). reflexivity.
Qed.

Lemma summary_eq (A : Type) (a a' : A) (b b' c c' d d' e e' : Z) :
  (a, (b, c, d, e)) = (a', (b', c', d', e')) ->
  a' = a /\ b' = b /\ c' = c /\ d' = d /\ e' = e.
Proof. intros H. injection H; intros; subst; repeat split. Qed.

(** X18.  On a non-empty slice, [summarizeLatencies] leaves the slice
    sorted in ascending order with the same durations, and the minimum and
    maximum it reports are durations of the slice that bound all the
    others. *)
Theorem summarizeLatencies_min_max (l sorted : list Z) (avg median mn mx : Z) :
  l <> [] ->
  Client.summarizeLatencies l = (sorted, (avg, median, mn, mx)) ->
  StronglySorted Z.le sorted /\ Permutation sorted l /\
  In mn l /\ In mx l /\
  forall d, In d l -> (mn <= d <= mx)%Z.
Proof.
  intros Hne E. rewrite (summarizeLatencies_nonempty Hne) in E.
  injection E as <- _ _ <- <-.
  pose proof (sort_Slice_sorted l) as Hs.
  pose proof (sort_Slice_perm l) as Hp.
  pose proof (Permutation_length Hp) as Hlen.
  assert (List.length l <> 0)%nat as Hn by (destruct l; [contradiction | discriminate]).
  split; [exact Hs|]. split; [exact Hp|].
  split; [apply (Permutation_in _ Hp), nth_In; lia|].
  split; [apply (Permutation_in _ Hp), nth_In; lia|].
  intros d Hd. rewrite <- Hlen.
  apply (@sorted_bounds _ d Hs), (Permutation_in _ (Permutation_sym Hp)), Hd.
Qed.

Lemma summarizeLatencies_min_max_witness :
  In 10%Z [30; 10; 20]%Z /\ In 30%Z [30; 10; 20]%Z /\ (10 <= 20 <= 30)%Z.
Proof.
  destruct (@summarizeLatencies_min_max [30; 10; 20]%Z [10; 20; 30]%Z 20%Z 20%Z
              10%Z 30%Z ltac:(discriminate) eq_refl)
    as (_ & _ & Hmn & Hmx & Hb).
  split; [exact Hmn|]. split; [exact Hmx|].
  apply Hb. right. right. left. reflexivity.
Defined.

(** X19.  When the durations are non-negative and their sum fits an int64,
    the reported average is the sum divided by the count (rounded down),
    and both the average and the median lie between the minimum and the
    maximum. *)
Theorem summarizeLatencies_avg_median (l sorted : list Z) (avg median mn mx : Z) :
  l <> [] ->
  (forall d, In d l -> (0 <= d)%Z) ->
  (sumZ l < 2 ^ 63)%Z ->
  Client.summarizeLatencies l = (sorted, (avg, median, mn, mx)) ->
  avg = (sumZ l / Z.of_nat (List.length l))%Z /\
  (mn <= avg <= mx)%Z /\ (mn <= median <= mx)%Z.
Proof.
  intros Hne Hpos Hsum E. rewrite (summarizeLatencies_nonempty Hne) in E.
  cbv zeta in E. apply summary_eq in E.
  destruct E as (-> & -> & -> & -> & ->).
  set (s := Client.sort_Slice l).
  set (n := List.length l).
  pose proof (sort_Slice_sorted l) as Hs. fold s in Hs.
  pose proof (sort_Slice_perm l) as Hp. fold s in Hp.
  pose proof (Permutation_length Hp) as Hlen. fold n in Hlen.
  assert (0 < n)%nat as Hn by (subst n; destruct l; [contradiction | simpl; lia]).
  assert (forall d, In d s -> (0 <= d)%Z) as Hpos'
    by (intros d Hd; apply Hpos, (Permutation_in _ Hp), Hd).
  assert (sumZ s = sumZ l) as Hsame by (apply sumZ_perm, Hp).
  rewrite (@totalNanoseconds_exact s Hpos') by lia. rewrite Hsame.
  pose proof (@sumZ_nonneg l Hpos) as Hnn.
  rewrite Z.quot_div_nonneg by lia.
  assert (forall d, In d s -> (nth 0 s 0 <= d <= nth (n - 1) s 0)%Z) as Hb
    by (intros d Hd; rewrite <- Hlen; apply (@sorted_bounds s d Hs), Hd).
  split; [reflexivity|]. split.
  - pose proof (@sumZ_bounds s _ _ Hb) as Hsb. rewrite Hlen, Hsame in Hsb.
    split.
    + apply Z.div_le_lower_bound; lia.
    + apply Z.div_le_upper_bound; lia.
  - assert (n / 2 < n)%nat as Hmid by (apply Nat.div_lt; lia).
    destruct (n mod 2 =? 0)%nat eqn:Hpar.
    + apply Nat.eqb_eq in Hpar.
      assert (1 <= n / 2)%nat as Hge.
      { destruct (n / 2)%nat as [|m] eqn:Hd; [|lia].
        pose proof (Nat.div_mod_eq n 2). lia. }
      assert (n / 2 - 1 < List.length s)%nat as Hi1 by lia.
      assert (n / 2 < List.length s)%nat as Hi2 by lia.
      pose proof (@sorted_nth_le s Hs (n / 2 - 1)%nat (n / 2)%nat ltac:(lia)) as Hab.
      pose proof (Hb _ (@nth_In Z _ s 0%Z Hi1)) as Ha.
      pose proof (Hb _ (@nth_In Z _ s 0%Z Hi2)) as Hbb.
      pose proof (Hpos' _ (@nth_In Z _ s 0%Z Hi1)) as Ha0.
      pose proof (@two_entries_le_sum s Hpos' (n / 2 - 1)%nat (n / 2)%nat
                    ltac:(lia)) as Hle.
      rewrite int64_wrap_small by lia.
      rewrite Z.quot_div_nonneg by lia.
      split.
      * apply Z.le_trans with (nth (n / 2 - 1) s 0%Z); [lia|].
        apply Z.div_le_lower_bound; lia.
      * apply Z.le_trans with (nth (n / 2) s 0%Z); [|lia].
        apply Z.div_le_upper_bound; lia.
    + apply Hb, nth_In. lia.
Qed.

Lemma summarizeLatencies_avg_median_witness :
  (25 = sumZ [40; 10; 30; 20] / 4)%Z /\ (10 <= 25 <= 40)%Z /\ (10 <= 25 <= 40)%Z.
Proof.
  apply (@summarizeLatencies_avg_median [40; 10; 30; 20]%Z [10; 20; 30; 40]%Z
           25%Z 25%Z 10%Z 40%Z).
  - discriminate.
  - intros d [<-|[<-|[<-|[<-|[]]]]]; lia.
  - simpl. lia.
  - reflexivity.
Defined.

(** X20.  The summary does not depend on the order in which the latencies
    were recorded: two slices holding the same durations give the same
    average, median, minimum and maximum, and are left in the same sorted
    state. *)
Theorem summarizeLatencies_order_independent (l l' : list Z) :
  Permutation l l' ->
  Client.summarizeLatencies l = Client.summarizeLatencies l'.
Proof.
  intros Hp. destruct l as [|x l].
  - apply Permutation_nil in Hp. subst l'. reflexivity.
  - assert (l' <> []) as Hne'.
    { intros ->. apply Permutation_sym, Permutation_nil in Hp. discriminate Hp. }
    rewrite (@summarizeLatencies_nonempty (x :: l)) by discriminate.
    rewrite (summarizeLatencies_nonempty Hne').
    cbv zeta. rewrite (sort_Slice_order_independent Hp), (Permutation_length Hp).
    reflexivity.
Qed.

Lemma summarizeLatencies_order_independent_witness :
  Client.summarizeLatencies [3; 1; 2]%Z = Client.summarizeLatencies [2; 3; 1]%Z.
Proof.
  apply (@summarizeLatencies_order_independent [3; 1; 2]%Z [2; 3; 1]%Z).
  apply perm_trans with [1; 3; 2]%Z; [apply perm_swap|].
  apply perm_trans with [1; 2; 3]%Z; [apply perm_skip, perm_swap|].
  apply perm_trans with [2; 1; 3]%Z; [apply perm_swap | apply perm_skip, perm_swap].
Defined.

(** * Start-up of the server, and what a failed extraction spares *)

(** X21.  [main] gets as far as serving, on port [port] with the server
    [server], exactly when PUBLIC_KEY_PEM is set, its text parses after
    normalisation to the RSA key the server holds, and [port] is the value
    of PORT when that is set and 8080 when it is not; the nil-key error of
    [newCalloutServer] is never the reason [main] stops. *)
Theorem main_setup_serves_parsed_key {K : KeyCodec} (Getenv : string -> string) :
  (forall port server,
     main_setup Getenv = Ok (port, server) <->
     port = (if String.eqb (Getenv "PORT") "" then "8080" else Getenv "PORT") /\
     Getenv "PUBLIC_KEY_PEM" <> "" /\
     parseRSAPublicKey (strings_ReplaceAll_nl (Getenv "PUBLIC_KEY_PEM"))
     = Ok (publicKey server)) /\
  (forall port server, main_setup Getenv = Ok (port, server) -> port <> "") /\
  (forall e, main_setup Getenv <> Err ("callout server error: " ++ e)).
Proof.
  unfold main_setup. cbv zeta.
  destruct (String.eqb (Getenv "PUBLIC_KEY_PEM") "") eqn:Hpem.
  - apply String.eqb_eq in Hpem. split; [|split].
    + intros port server. split; [discriminate|]. intros (_ & Hne & _).
      contradiction.
    + intros port server E. discriminate E.
    + intros e E. discriminate E.
  - apply String.eqb_neq in Hpem.
    destruct (parseRSAPublicKey _) as [key|err] eqn:Hkey; simpl.
    + split; [|split].
      * intros port [k]. simpl. split.
        -- intros E. injection E as <- <-. repeat split. exact Hpem.
        -- intros (-> & _ & E). injection E as <-. reflexivity.
      * intros port server E. injection E as <- _.
        destruct (String.eqb (Getenv "PORT") "") eqn:Hport; [discriminate|].
        apply String.eqb_neq, Hport.
      * intros e E. discriminate E.
    + split; [|split].
      * intros port server. split; [discriminate|]. intros (_ & _ & E).
        discriminate E.
      * intros port server E. discriminate E.
      * intros e E. discriminate E.
Qed.

Lemma main_setup_serves_parsed_key_witness :
  main_setup (K := SampleConfig.keyCodec) SampleConfig.Getenv
  = Ok ("9000", mkCalloutServer Sample.key).
Proof.
  apply (proj1 (@main_setup_serves_parsed_key SampleConfig.keyCodec
                  SampleConfig.Getenv)).
  repeat split. discriminate.
Defined.

(** X22.  When bearer extraction fails, neither adapter consults the token
    library or the key: the answer to a request without a usable
    [authorization] value is the same for every library and every server. *)
Theorem extraction_failure_spares_validation (L1 L2 : JwtLibrary)
    (s1 s2 : calloutServer) (headers : option HeaderMap) (r : string)
    (req : option CheckRequest) (hh : HttpHeaders) :
  bearerFromHeaderMap headers = Err r ->
  checkHeaders req = headers ->
  hh_Headers hh = headers ->
  Check (L := L1) s1 req = Check (L := L2) s2 req /\
  handleRequestHeaders (L := L1) s1 (Some hh)
  = handleRequestHeaders (L := L2) s2 (Some hh).
Proof.
  intros He <- Hh. unfold Check, handleRequestHeaders, bearerFromRequest.
  simpl HttpHeaders_GetHeaders. rewrite Hh. fold (checkHeaders req).
  rewrite He. split; reflexivity.
Qed.

Lemma extraction_failure_spares_validation_witness :
  Check (L := Sample.library) Sample.server
    (Sample.checkRequest (Sample.authHeaders "Token alice.token"))
  = Check (L := Sample.pinned)
      (mkCalloutServer (mkPublicKey 1 1))
      (Sample.checkRequest (Sample.authHeaders "Token alice.token")).
Proof.
  apply (@extraction_failure_spares_validation Sample.library
           Sample.pinned
           Sample.server (mkCalloutServer (mkPublicKey 1 1))
           (Sample.authHeaders "Token alice.token")
           "authorization header is invalid"
           (Sample.checkRequest (Sample.authHeaders "Token alice.token"))
           (mkHttpHeaders (Sample.authHeaders "Token alice.token") false)
           eq_refl eq_refl eq_refl).
Defined.
